(** * sp-rest-api.js: a shallow embedding of the SharePoint list client

    The library is a thin jQuery-based wrapper: it builds request URLs by
    string templating, reads its settings from an options object that is
    shared between [this.options] and [this.defaultOptions], and hands a
    settings object to [$.ajax].  The embedding below keeps the JavaScript
    semantics the code relies on: dynamically typed values, objects that live
    in a store and are reached through references, truthiness, string
    conversion, exceptions, and the global object.

    Layout: values and the store; the effect monad; the two string polyfills
    ([format], [includes]); the methods of [SpRestApi.prototype]; then the
    theorems. *)

From Stdlib Require Import ZArith Ascii Lia.
From Stdlib Require String.
From Stdlib Require Import FunInd Recdef.
From stdpp Require Import base strings gmap pretty.

(** ** Values *)

Abbreviation loc := positive.

(** A JavaScript value.  [VNum n] is the Number whose value is the integer
    [n] (the item identifiers and page sizes the library handles are
    integers); [VNaN] is kept because it is falsy.  [VFun src ret] is a
    function supplied by the page or by the caller (such as [console.log]):
    the library only ever calls such a function or converts it to a string,
    so the model keeps its source text and the value it returns, and logs
    each call.  [VRef l] is a reference to a plain object in the store. *)
Inductive val : Type :=
  | VUndef
  | VNull
  | VBool (b : bool)
  | VNum (n : Z)
  | VNaN
  | VStr (s : string)
  | VFun (src : string) (ret : val)
  | VRef (l : loc).

(** ToBoolean. *)
Definition truthy (v : val) : bool :=
  match v with
  | VUndef | VNull | VNaN => false
  | VBool b => b
  | VNum n => negb (n =? 0)%Z
  | VStr s => negb (String.eqb s "")
  | VFun _ _ | VRef _ => true
  end.

(** ToString.  A plain object converts through [Object.prototype.toString]. *)
Definition to_string (v : val) : string :=
  match v with
  | VUndef => "undefined"
  | VNull => "null"
  | VBool true => "true"
  | VBool false => "false"
  | VNum n => pretty n
  | VNaN => "NaN"
  | VStr s => s
  | VFun src _ => src
  | VRef _ => "[object Object]"
  end.

(** [typeof v === 'function'] and [typeof v !== 'undefined']. *)
Definition is_function (v : val) : bool :=
  match v with VFun _ _ => true | _ => false end.

Definition is_defined (v : val) : bool :=
  match v with VUndef => false | _ => true end.

(** The binary [+].  Objects and functions convert to strings under
    ToPrimitive, so the result is a concatenation as soon as one operand is a
    string, an object or a function; otherwise both operands are converted
    with ToNumber ([None] stands for NaN) and added. *)
Definition to_primitive_is_string (v : val) : bool :=
  match v with VStr _ | VFun _ _ | VRef _ => true | _ => false end.

Definition to_number (v : val) : option Z :=
  match v with
  | VNull => Some 0%Z
  | VBool b => Some (if b then 1 else 0)%Z
  | VNum n => Some n
  | _ => None
  end.

Definition js_add (a b : val) : val :=
  if to_primitive_is_string a || to_primitive_is_string b
  then VStr (to_string a +:+ to_string b)
  else match to_number a, to_number b with
       | Some x, Some y => VNum (x + y)
       | _, _ => VNaN
       end.

(** ** The store, requests and the effect monad *)

(** What a JavaScript [throw] or a failing primitive raises. *)
Inductive exn : Type :=
  | Thrown (v : val)
  | ReferenceError (name : string)
  | TypeError.

(** The functions that [loadUrl] can receive as [success] and [error]: a
    value read from the options (or passed by the caller), or one of the two
    closures that [refreshDigest] creates. *)
Inductive callee : Type :=
  | FromValue (f : val)
  | DigestSuccess (callback : val)
  | DigestError.

(** The settings object handed to [$.ajax] by [loadUrl].  Its [success] and
    [error] members are the wrappers [function (data) { success(data); }] and
    [function (data) { error(data); }]; the record keeps the function each
    wrapper forwards to. *)
Record request : Type := mkRequest {
  req_url : val;
  req_type : val;
  req_cache : bool;
  req_contentType : val;
  req_headers : list (string * val);
  req_success : callee;
  req_error : callee;
}.

(** The program state: the object store, the properties of the global
    object, the page's elements by id (for [document.getElementById]), the
    requests handed to [$.ajax] so far, and the calls made to page or caller
    functions so far (source text and arguments). *)
Record state : Type := mkState {
  heap : gmap loc (gmap string val);
  globals : gmap string val;
  elements : gmap string val;
  requests : list request;
  calls : list (string * list val);
}.

Definition set_heap (h : gmap loc (gmap string val)) (st : state) : state :=
  mkState h (globals st) (elements st) (requests st) (calls st).
Definition set_globals (g : gmap string val) (st : state) : state :=
  mkState (heap st) g (elements st) (requests st) (calls st).
Definition add_request (r : request) (st : state) : state :=
  mkState (heap st) (globals st) (elements st) (requests st ++ [r]) (calls st).
Definition add_call (c : string * list val) (st : state) : state :=
  mkState (heap st) (globals st) (elements st) (requests st) (calls st ++ [c]).

(** A computation returns normally with a value or raises; either way the
    state it leaves behind is kept, as in JavaScript. *)
Inductive outcome (A : Type) : Type :=
  | Ok (a : A)
  | Raise (e : exn).
Arguments Ok {A} a.
Arguments Raise {A} e.

Definition M (A : Type) : Type := state → outcome A * state.

Definition ret {A} (a : A) : M A := λ st, (Ok a, st).
Definition raise {A} (e : exn) : M A := λ st, (Raise e, st).
Definition bind {A B} (m : M A) (k : A → M B) : M B :=
  λ st, match m st with
        | (Ok a, st') => k a st'
        | (Raise e, st') => (Raise e, st')
        end.

Notation "'let!' x ':=' m 'in' k" := (bind m (λ x, k))
  (at level 10, x name, m at level 100, k at level 200).
Notation "'run!' m 'in' k" := (bind m (λ _, k))
  (at level 10, m at level 100, k at level 200).

(** Member read [v.k].  Reading a member of [undefined] or [null] raises a
    TypeError; a primitive or a function has none of the members this
    library reads. *)
Definition get_field (v : val) (k : string) : M val :=
  λ st, match v with
        | VUndef | VNull => (Raise TypeError, st)
        | VRef l =>
            match heap st !! l with
            | Some o => (Ok (default VUndef (o !! k)), st)
            | None => (Ok VUndef, st)
            end
        | _ => (Ok VUndef, st)
        end.

(** Member write [v.k = x] in non-strict code: a write to a primitive is
    silently dropped (properties of page functions are not modelled). *)
Definition set_field (v : val) (k : string) (x : val) : M unit :=
  λ st, match v with
        | VUndef | VNull => (Raise TypeError, st)
        | VRef l =>
            (Ok (), set_heap (<[l := <[k := x]> (default ∅ (heap st !! l))]> (heap st)) st)
        | _ => (Ok (), st)
        end.

(** An object literal: a new object in the store. *)
Definition alloc (o : gmap string val) : M val :=
  λ st, let l := fresh (dom (heap st)) in
        (Ok (VRef l), set_heap (<[l := o]> (heap st)) st).

(** A free identifier, resolved on the global object. *)
Definition lookup_global (name : string) : M val :=
  λ st, match globals st !! name with
        | Some v => (Ok v, st)
        | None => (Raise (ReferenceError name), st)
        end.

(** A call [f(args)] of a value: page and caller functions are logged and
    return their result; anything else is not callable. *)
Definition invoke (f : val) (args : list val) : M val :=
  λ st, match f with
        | VFun src r => (Ok r, add_call (src, args) st)
        | _ => (Raise TypeError, st)
        end.

(** [a && b]: the right operand is evaluated only when the left is truthy. *)
Definition js_and (ma mb : M val) : M val :=
  let! a := ma in if truthy a then mb else ret a.

(** [v.k1.k2...]. *)
Fixpoint get_path (v : val) (ks : list string) : M val :=
  match ks with
  | [] => ret v
  | k :: ks' => let! x := get_field v k in get_path x ks'
  end.

Global Instance val_eq_dec : EqDecision val.
Proof. solve_decision. Defined.

(** ** The string polyfills *)

Module Polyfill.

(** [\d] of a JavaScript regular expression: the ten ASCII digits. *)
Definition is_digit (c : ascii) : bool :=
  match c with
  | "0" | "1" | "2" | "3" | "4" | "5" | "6" | "7" | "8" | "9" => true
  | _ => false
  end%char.

(** The longest run of digits at the front of [s], and what follows it. *)
Fixpoint span_digits (s : string) : string * string :=
  match s with
  | String c s' =>
      if is_digit c
      then let '(ds, r) := span_digits s' in (String c ds, r)
      else ("", s)
  | EmptyString => ("", "")
  end.

(** One attempt of [/{(\d+)}/] at the front of [s]: the captured digits and
    the text after the closing brace.  [\d+] is greedy and a digit is never a
    brace, so the attempt succeeds exactly when the longest digit run after
    the opening brace is non-empty and is followed by the closing brace. *)
Definition match_placeholder (s : string) : option (string * string) :=
  match s with
  | String c s1 =>
      if Ascii.eqb c "{"
      then match span_digits s1 with
           | (String d ds, String c' r) =>
               if Ascii.eqb c' "}" then Some (String d ds, r) else None
           | _ => None
           end
      else None
  | EmptyString => None
  end.

Fixpoint all_digits (s : string) : bool :=
  match s with
  | String c s' => is_digit c && all_digits s'
  | EmptyString => true
  end.

(** A match consumes at least its two braces, which is why the scan below
    terminates. *)
Lemma app_cons (c : ascii) (s t : string) :
  String c s +:+ t = String c (s +:+ t).
Proof. reflexivity. Qed.

Lemma length_app (s t : string) :
  String.length (s +:+ t) = String.length s + String.length t.
Proof. induction s as [|c s IH]; [done|]. rewrite app_cons. simpl. by rewrite IH. Qed.

Lemma span_digits_app s ds r : span_digits s = (ds, r) → s = ds +:+ r.
Proof.
  revert ds r. induction s as [|c s IH]; simpl; intros ds r.
  - by intros [= <- <-].
  - destruct (is_digit c); [|by intros [= <- <-]].
    destruct (span_digits s) as [ds' r'].
    intros [= <- <-]. rewrite app_cons. f_equal. by apply IH.
Qed.

Lemma match_placeholder_shape s ds r :
  match_placeholder s = Some (ds, r) → s = "{" +:+ ds +:+ "}" +:+ r.
Proof.
  destruct s as [|c s]; [done|]. unfold match_placeholder.
  destruct (Ascii.eqb_spec c "{") as [->|Hne]; [|done].
  destruct (span_digits s) as [ds0 r0] eqn:Hsp.
  apply span_digits_app in Hsp as ->.
  destruct ds0 as [|d ds']; [done|]. destruct r0 as [|c' r']; [done|].
  destruct (Ascii.eqb_spec c' "}") as [->|Hne]; [|done].
  by intros [= <- <-].
Qed.

(** [s.replace(/{(\d+)}/g, fn)]: the text is scanned from the left; where
    the pattern matches, the match is replaced by the string conversion of
    what [fn(match, number)] returns and the scan goes on after the match
    (the replacement is not scanned again); elsewhere the character is
    copied. *)
Function replace_placeholders (fn : string → string → val) (s : string)
    {measure String.length s} : string :=
  match s with
  | EmptyString => EmptyString
  | String c s' =>
      match match_placeholder s with
      | Some (number, rest) =>
          to_string (fn ("{" +:+ number +:+ "}") number)
            +:+ replace_placeholders fn rest
      | None => String c (replace_placeholders fn s')
      end
  end.
Proof.
  - intros fn s c s' -> p number rest -> Hm.
    apply match_placeholder_shape in Hm. rewrite Hm.
    rewrite !length_app. simpl. lia.
  - intros. simpl. lia.
Defined.

(** [args[number]] on an [arguments] object: its indexed properties are
    named by the decimal rendering of the index, so a capture with a leading
    zero names none of them. *)
Fixpoint arguments_get (i : nat) (args : list val) (number : string) : val :=
  match args with
  | [] => VUndef
  | v :: rest =>
      if decide (pretty i = number) then v
      else arguments_get (S i) rest number
  end.

(** [String.prototype.format]. *)
Definition format (this : string) (args : list val) : string :=
  replace_placeholders
    (λ match_ number,
       if is_defined (arguments_get 0 args number)
       then arguments_get 0 args number
       else VStr match_)
    this.

(** [this.indexOf(search, start)], with [None] for [-1]. *)
Definition indexOf (this search : string) (start : nat) : option nat :=
  String.index start search this.

(** [String.prototype.includes]: a [start] that is not a number counts as
    zero, and so does a negative one. *)
Definition includes (this search : string) (start : val) : bool :=
  let start := match start with VNum n => Z.to_nat n | _ => 0 end in
  if String.length this <? start + String.length search then false
  else bool_decide (indexOf this search start ≠ None).

End Polyfill.

(** ** jQuery and the page *)

(** [$.extend(target, options)] with one source object, the shallow form the
    library uses: every enumerable own property of [options] whose value is
    not [undefined] (and is not the target itself) is written to [target],
    and [target] is returned.  A target that is not an object is replaced by
    a new empty object; [null] and [undefined] options contribute nothing,
    a string contributes its characters by index.  (The library always
    passes [this.defaultOptions], an object, as the target; jQuery's other
    calling conventions, such as a boolean first argument, are not
    modelled.) *)
Definition properties_of (st : state) (v : val) : gmap string val :=
  match v with
  | VRef l => default ∅ (heap st !! l)
  | VStr s =>
      list_to_map
        (imap (λ i c, (pretty i, VStr (String c "")))
              (String.list_ascii_of_string s))
  | _ => ∅
  end.

Definition own_properties (v : val) : M (gmap string val) :=
  λ st, (Ok (properties_of st v), st).

Definition copied (l : loc) (kv : string * val) : Prop :=
  kv.1 ≠ "__proto__" ∧ kv.2 ≠ VRef l ∧ kv.2 ≠ VUndef.

Global Instance copied_dec l kv : Decision (copied l kv).
Proof. unfold copied. apply _. Defined.

(** The properties of the target [l] after the properties [props] have been
    merged into its properties [old]. *)
Definition merge (l : loc) (props old : gmap string val) : gmap string val :=
  filter (copied l) props ∪ old.

Definition extend (target options : val) : M val :=
  let! target :=
    match target with
    | VRef _ | VFun _ _ => ret target
    | _ => alloc ∅
    end in
  let! props := own_properties options in
  match target with
  | VRef l =>
      λ st, (Ok target,
             set_heap (<[l := merge l props (default ∅ (heap st !! l))]>
                         (heap st)) st)
  | _ => ret target
  end.

(** [document.getElementById(id)]: the element, or [null]. *)
Definition getElementById (id : string) : M val :=
  λ st, (Ok (default VNull (elements st !! id)), st).

(** [$.ajax(settings)]: the transport is outside the library; the model
    records the settings object. *)
Definition ajax (r : request) : M unit :=
  λ st, (Ok (), add_request r st).

(** A method call [recv.format(...)] or [recv.includes(search)]: on a string
    the polyfill runs, on anything else the member is read and called. *)
Definition call_format (recv : val) (args : list val) : M val :=
  match recv with
  | VStr s => ret (VStr (Polyfill.format s args))
  | _ => let! f := get_field recv "format" in invoke f args
  end.

Definition call_includes (recv : val) (search : string) : M val :=
  match recv with
  | VStr s => ret (VBool (Polyfill.includes s search VUndef))
  | _ => let! f := get_field recv "includes" in invoke f [VStr search]
  end.

(** ** SpRestApi *)

(** [SpRestApi.Verbosity]. *)
Inductive Verbosity : Type := COMPACT | MINIMAL | VERBOSE.

Definition Verbosity_value (v : Verbosity) : string :=
  match v with
  | COMPACT => "application/json;odata=nometadata"
  | MINIMAL => "application/json;odata=minimalmetadata"
  | VERBOSE => "application/json;odata=verbose"
  end.

Definition urls_list : string := "/_api/web/lists/getbytitle('{0}')/items".
Definition urls_item : string := "/_api/web/lists/getbytitle('{0}')/items({1})".

(** The constructor body, run on the new instance [this]. *)
Definition SpRestApi (this options : val) : M unit :=
  let! console1 := lookup_global "console" in
  let! onsuccess := get_field console1 "log" in
  let! console2 := lookup_global "console" in
  let! onerror := get_field console2 "log" in
  let! ctx := lookup_global "_spPageContextInfo" in
  let! siteUrl :=
    (if truthy ctx
     then let! ctx' := lookup_global "_spPageContextInfo" in
          get_field ctx' "webAbsoluteUrl"
     else ret (VStr "")) in
  let! el := getElementById "__REQUESTDIGEST" in
  let! token :=
    (if truthy el
     then let! el' := getElementById "__REQUESTDIGEST" in
          get_field el' "value"
     else ret (VStr "")) in
  let! urls := alloc (<["list" := VStr urls_list]> (<["item" := VStr urls_item]> ∅)) in
  let! defaults :=
    alloc (list_to_map
             [ ("onsuccess", onsuccess); ("onerror", onerror);
               ("listTitle", VStr ""); ("maxItems", VNum 100);
               ("recursiveFetch", VBool true);
               ("verbosity", VStr (Verbosity_value VERBOSE));
               ("siteUrl", siteUrl); ("token", token); ("urls", urls) ]) in
  run! set_field this "defaultOptions" defaults in
  let! target := get_field this "defaultOptions" in
  let! merged := extend target options in
  set_field this "options" merged.

(** [new SpRestApi(options)]. *)
Definition new_SpRestApi (options : val) : M val :=
  let! this := alloc ∅ in
  run! SpRestApi this options in
  ret this.

Definition lists (this listTitle : val) : M val :=
  let! opts := get_field this "options" in
  run! set_field opts "listTitle" listTitle in
  ret this.

Definition config (this options : val) : M val :=
  let! target := get_field this "defaultOptions" in
  let! merged := extend target options in
  run! set_field this "options" merged in
  ret this.

Definition addMaxItems (this url : val) : M val :=
  let! q := call_includes url "?" in
  let url := js_add url (if truthy q then VStr "&" else VStr "?") in
  let! opts := get_field this "options" in
  let! maxItems := get_field opts "maxItems" in
  ret (js_add (js_add url (VStr "$top=")) maxItems).

Definition loadUrl (this url method : val) (success error : callee) : M unit :=
  let! opts1 := get_field this "options" in
  let! contentType := get_field opts1 "verbosity" in
  let! opts2 := get_field this "options" in
  let! accept := get_field opts2 "verbosity" in
  let! opts3 := get_field this "options" in
  let! token := get_field opts3 "token" in
  ajax {| req_url := url;
          req_type := method;
          req_cache := false;
          req_contentType := contentType;
          req_headers := [("Accept", accept); ("X-RequestDigest", token)];
          req_success := success;
          req_error := error |}.

Definition generateGetAllListItemsUrl (this : val) : M val :=
  let! opts1 := get_field this "options" in
  let! siteUrl := get_field opts1 "siteUrl" in
  let! opts2 := get_field this "options" in
  let! urls := get_field opts2 "urls" in
  let! template := get_field urls "list" in
  let! opts3 := get_field this "options" in
  let! listTitle := get_field opts3 "listTitle" in
  let! path := call_format template [listTitle] in
  let url := js_add siteUrl path in
  addMaxItems this url.

(** [getAllItems] calls [generateGetAllListItemsUrl] as a free identifier,
    not as a method of [this]: the name is resolved on the global object. *)
Definition getAllItems (this : val) : M unit :=
  let! f := lookup_global "generateGetAllListItemsUrl" in
  let! url := invoke f [] in
  let! opts1 := get_field this "options" in
  let! onsuccess := get_field opts1 "onsuccess" in
  let! opts2 := get_field this "options" in
  let! onerror := get_field opts2 "onerror" in
  loadUrl this url (VStr "GET") (FromValue onsuccess) (FromValue onerror).

Definition getAllItemsFromListSubfolder (this subfolderName : val) : M unit :=
  let! opts0 := get_field this "options" in
  let! listTitle := get_field opts0 "listTitle" in
  let fileref :=
    js_add (js_add (js_add (js_add (VStr "Lists/") listTitle) (VStr "/"))
                   subfolderName) (VStr "/") in
  let! url := generateGetAllListItemsUrl this in
  let url :=
    js_add url (js_add (js_add (VStr "&$filter=substringof('") fileref)
                       (VStr "', FileRef)")) in
  let! opts1 := get_field this "options" in
  let! onsuccess := get_field opts1 "onsuccess" in
  let! opts2 := get_field this "options" in
  let! onerror := get_field opts2 "onerror" in
  loadUrl this url (VStr "GET") (FromValue onsuccess) (FromValue onerror).

Definition getItem (this itemId : val) : M unit :=
  if negb (truthy itemId)
  then raise (Thrown (VStr "The list item ID must not be empty."))
  else
    let! opts1 := get_field this "options" in
    let! siteUrl := get_field opts1 "siteUrl" in
    let! opts2 := get_field this "options" in
    let! urls := get_field opts2 "urls" in
    let! template := get_field urls "item" in
    let! opts3 := get_field this "options" in
    let! listTitle := get_field opts3 "listTitle" in
    let! path := call_format template [listTitle; itemId] in
    let url := js_add siteUrl path in
    let! opts4 := get_field this "options" in
    let! onsuccess := get_field opts4 "onsuccess" in
    let! opts5 := get_field this "options" in
    let! onerror := get_field opts5 "onerror" in
    loadUrl this url (VStr "GET") (FromValue onsuccess) (FromValue onerror).

(** [root.GetContextWebInformation.FormDigestValue], the place of the digest
    in a response; [root] is [d] or [value]. *)
Definition digest_path (root : string) : list string :=
  [root; "GetContextWebInformation"; "FormDigestValue"].

(** The test [data && data.root && data.root.GetContextWebInformation &&
    data.root.GetContextWebInformation.FormDigestValue]. *)
Definition digest_present (data : val) (root : string) : M val :=
  js_and (js_and (js_and (ret data) (get_field data root))
                 (get_path data [root; "GetContextWebInformation"]))
         (get_path data (digest_path root)).

(** An assignment to a property of the global object. *)
Definition set_global (name : string) (v : val) : M unit :=
  λ st, (Ok (), set_globals (<[name := v]> (globals st)) st).

(** The [success] closure of [refreshDigest].  [loadUrl]'s wrapper calls it
    as a plain function, so in this non-strict script its [this] is the
    global object: the assignment [this.options = ...] writes the global
    [options]. *)
Definition refreshDigest_success (callback data : val) : M unit :=
  let! verbose := digest_present data "d" in
  run! (if truthy verbose
        then let! digest := get_path data (digest_path "d") in
             set_global "options" digest
        else
          let! compact := digest_present data "value" in
          if truthy compact
          then let! digest := get_path data (digest_path "value") in
               set_global "options" digest
          else raise (Thrown (VStr "Unable to obtain SharePoint authorization token."))) in
  if is_function callback
  then run! invoke callback [] in ret ()
  else ret ().

(** The [error] closure of [refreshDigest]. *)
Definition refreshDigest_error : M unit :=
  raise (Thrown (VStr "Unable to obtain SharePoint authorization token")).

(** [refreshDigest] reads [this.siteUrl], a member of the instance itself
    (the options object is [this.options]). *)
Definition refreshDigest (this callback : val) : M unit :=
  let! siteUrl := get_field this "siteUrl" in
  let url := js_add siteUrl (VStr "/_api/contextinfo") in
  loadUrl this url (VStr "POST") (DigestSuccess callback) DigestError.

(** What the wrappers installed by [loadUrl] do when the transport reports
    the outcome of a request: forward the response to [success] or to
    [error]. *)
Definition call_callee (c : callee) (data : val) : M unit :=
  match c with
  | FromValue f => run! invoke f [data] in ret ()
  | DigestSuccess callback => refreshDigest_success callback data
  | DigestError => refreshDigest_error
  end.

Definition on_success (r : request) (data : val) : M unit :=
  call_callee (req_success r) data.

Definition on_error (r : request) (data : val) : M unit :=
  call_callee (req_error r) data.

(** ** Reading a client's state *)

(** [opt opts k] is the value of [opts.k]. *)
Definition opt (opts : gmap string val) (k : string) : val :=
  default VUndef (opts !! k).

(** [client st this o opts]: in [st], [this] is an instance whose [options]
    member refers to the object [o], and that object's properties are
    [opts]. *)
Definition client (st : state) (this o : loc) (opts : gmap string val) : Prop :=
  ∃ inst, heap st !! this = Some inst
          ∧ inst !! "options" = Some (VRef o)
          ∧ heap st !! o = Some opts.

(** [aliased_client st this o opts]: as [client], and [this.defaultOptions]
    is the very same object as [this.options].  The constructor leaves the
    instance in this shape, and [lists] and [config] keep it. *)
Definition aliased_client (st : state) (this o : loc)
    (opts : gmap string val) : Prop :=
  ∃ inst, heap st !! this = Some inst
          ∧ inst !! "options" = Some (VRef o)
          ∧ inst !! "defaultOptions" = Some (VRef o)
          ∧ heap st !! o = Some opts
          ∧ this ≠ o.

(** The state after [config(options)] on a client whose options object [o]
    has the properties [opts]. *)
Definition configured (st : state) (o : loc) (opts : gmap string val)
    (options : val) : state :=
  set_heap (<[o := merge o (properties_of st options) opts]> (heap st)) st.

(** A computation that only reads leaves the state alone. *)
Definition reads {A} (m : M A) : Prop :=
  ∀ st r st', m st = (r, st') → st' = st.

(** [url_template st opts name tpl]: [opts.urls] is an object whose member
    [name] is the template string [tpl]. *)
Definition url_template (st : state) (opts : gmap string val)
    (name tpl : string) : Prop :=
  ∃ u urls, opts !! "urls" = Some (VRef u)
            ∧ heap st !! u = Some urls
            ∧ urls !! name = Some (VStr tpl).

(** [s] ends with [suffix]. *)
Definition ends_with (s suffix : string) : Prop :=
  ∃ pre, s = pre +:+ suffix.

(** [sub] occurs in [s]. *)
Definition contains (s sub : string) : Prop :=
  ∃ pre post, s = pre +:+ sub +:+ post.

(** The text that [format] puts in place of [{n}] when the [n]th argument
    is [v]. *)
Definition argument_text (n : nat) (v : val) : string :=
  if is_defined v then to_string v else "{" +:+ pretty n +:+ "}".

(** The separator [addMaxItems] inserts before [$top=]. *)
Definition separator (url : string) : string :=
  if Polyfill.includes url "?" VUndef then "&" else "?".

(** The list-collection URL for the options [opts] and the list template
    [tpl]: site URL, formatted template, page size. *)
Definition list_url (opts : gmap string val) (tpl : string) : string :=
  let base := to_string (opt opts "siteUrl")
                +:+ Polyfill.format tpl [opt opts "listTitle"] in
  base +:+ separator base +:+ "$top=" +:+ to_string (opt opts "maxItems").

(** The single-item URL that [getItem] builds from the default item
    template. *)
Definition item_url (opts : gmap string val) (itemId : val) : string :=
  to_string (opt opts "siteUrl")
    +:+ "/_api/web/lists/getbytitle('"
    +:+ argument_text 0 (opt opts "listTitle")
    +:+ "')/items(" +:+ to_string itemId +:+ ")".

(** The path fragment [getAllItemsFromListSubfolder] looks for in [FileRef]. *)
Definition fileref (opts : gmap string val) (subfolderName : val) : string :=
  "Lists/" +:+ to_string (opt opts "listTitle")
    +:+ "/" +:+ to_string subfolderName +:+ "/".

(** The GET request that the list methods hand to [loadUrl] for [url]. *)
Definition get_request (opts : gmap string val) (url : val) : request :=
  {| req_url := url;
     req_type := VStr "GET";
     req_cache := false;
     req_contentType := opt opts "verbosity";
     req_headers := [("Accept", opt opts "verbosity");
                     ("X-RequestDigest", opt opts "token")];
     req_success := FromValue (opt opts "onsuccess");
     req_error := FromValue (opt opts "onerror") |}.

(** The value of [v.k] where reading it cannot fail. *)
Definition field_value (st : state) (v : val) (k : string) : val :=
  match v with
  | VRef l => match heap st !! l with Some obj => opt obj k | None => VUndef end
  | _ => VUndef
  end.

(** The value of
    [data && data.root && data.root.GetContextWebInformation
          && data.root.GetContextWebInformation.FormDigestValue]:
    the response carries a digest under [root] when this value is truthy. *)
Definition digest_of (st : state) (data : val) (root : string) : val :=
  let r := field_value st data root in
  let info := field_value st r "GetContextWebInformation" in
  if truthy data
  then if truthy r
       then if truthy info then field_value st info "FormDigestValue" else info
       else r
  else data.

(** The state after the [success] closure of [refreshDigest] has found the
    digest [digest] and called [callback]. *)
Definition digest_stored (digest callback : val) (st : state) : state :=
  let st' := set_globals (<["options" := digest]> (globals st)) st in
  match callback with
  | VFun src _ => add_call (src, []) st'
  | _ => st'
  end.

(** The state [st] with the [recursiveFetch] flag of the options object [o]
    (whose properties are [opts]) set to [v]. *)
Definition with_flag (v : val) (o : loc) (opts : gmap string val)
    (st : state) : state :=
  set_heap (<[o := <["recursiveFetch" := v]> opts]> (heap st)) st.

(** [url] has a query string: a question mark occurs in it. *)
Definition has_query (url : string) : Prop :=
  ∃ pre post, url = pre +:+ "?" +:+ post.

(** ** Notions used by the further properties *)

(** What the constructor needs from the page: [console] is bound to
    something whose members can be read, and [_spPageContextInfo] is
    declared. *)
Definition page_bound (st : state) (cns ctx : val) : Prop :=
  globals st !! "console" = Some cns
  ∧ cns ≠ VUndef ∧ cns ≠ VNull
  ∧ globals st !! "_spPageContextInfo" = Some ctx.

(** The constructor's argument is a primitive or an object of the store. *)
Definition well_scoped (st : state) (v : val) : Prop :=
  ∀ a, v = VRef a → is_Some (heap st !! a).

(** The site URL and the token that the constructor finds on the page. *)
Definition page_siteUrl (st : state) (ctx : val) : val :=
  if truthy ctx then field_value st ctx "webAbsoluteUrl" else VStr "".

Definition page_token (st : state) : val :=
  let el := default VNull (elements st !! "__REQUESTDIGEST") in
  if truthy el then field_value st el "value" else VStr "".

(** The object literal assigned to [this.defaultOptions], with [u] the new
    [urls] object. *)
Definition constructor_defaults (st : state) (cns ctx : val) (u : loc)
    : gmap string val :=
  list_to_map
    [ ("onsuccess", field_value st cns "log");
      ("onerror", field_value st cns "log");
      ("listTitle", VStr ""); ("maxItems", VNum 100);
      ("recursiveFetch", VBool true);
      ("verbosity", VStr (Verbosity_value VERBOSE));
      ("siteUrl", page_siteUrl st ctx); ("token", page_token st);
      ("urls", VRef u) ].

(** The [urls] object of the defaults. *)
Definition default_urls : gmap string val :=
  <["list" := VStr urls_list]> (<["item" := VStr urls_item]> ∅).

(** The digest that the [success] closure of [refreshDigest] takes from a
    response: the one under [d] when there is one, else the one under
    [value]. *)
Definition chosen_digest (st : state) (data : val) : val :=
  if truthy (digest_of st data "d") then digest_of st data "d"
  else digest_of st data "value".

(** [sub] occurs in [s] at a position that is not before [start]. *)
Definition occurs_from (start : nat) (s sub : string) : Prop :=
  ∃ pre post, s = pre +:+ sub +:+ post ∧ start ≤ String.length pre.


(** ** A SharePoint page *)

(** A page as the library expects to find it: [console], the page context
    with the site URL, and the hidden form field with the request digest.
    The page defines no global function of its own. *)
Module Page.

Definition console_log : val := VFun "function log() { [native code] }" VUndef.

Definition site : string := "https://contoso.sharepoint.com/sites/team".

Definition page : state :=
  {| heap := {[ 1%positive := {[ "log" := console_log ]};
                2%positive := {[ "webAbsoluteUrl" := VStr site ]};
                3%positive := {[ "value" := VStr "0x1F2E3D" ]} ]};
     globals := {[ "console" := VRef 1; "_spPageContextInfo" := VRef 2 ]};
     elements := {[ "__REQUESTDIGEST" := VRef 3 ]};
     requests := [];
     calls := [] |}.

(** The state after [var api = new SpRestApi()], and [api] itself. *)
Definition fresh_client : state := (new_SpRestApi VUndef page).2.
Definition api : loc := 4%positive.
Definition api_options : loc := 6%positive.

(** The state after [api.lists('Docs')]. *)
Definition docs_client : state := (lists (VRef api) (VStr "Docs") fresh_client).2.

(** The properties of [api.options] in [docs_client]. *)
Definition docs_options : gmap string val :=
  list_to_map
    [ ("onsuccess", console_log); ("onerror", console_log);
      ("listTitle", VStr "Docs"); ("maxItems", VNum 100);
      ("recursiveFetch", VBool true);
      ("verbosity", VStr (Verbosity_value VERBOSE));
      ("siteUrl", VStr site); ("token", VStr "0x1F2E3D");
      ("urls", VRef 5) ].

(** The state after the caller has built the two objects [{token: "t"}] and
    [{listTitle: "X"}], and the two objects. *)
Definition with_arguments : state :=
  (alloc {[ "listTitle" := VStr "X" ]}
     (alloc {[ "token" := VStr "t" ]} fresh_client).2).2.
Definition token_argument : loc := 7%positive.
Definition listTitle_argument : loc := 8%positive.

(** The properties of [api.options] in [fresh_client]. *)
Definition fresh_options : gmap string val :=
  <["listTitle" := VStr ""]> docs_options.

(** The state after the caller has built [{recursiveFetch: false}] and
    passed it to [api.config]. *)
Definition single_request_client : state :=
  (config (VRef api) (VRef 7)
     (alloc {[ "recursiveFetch" := VBool false ]} docs_client).2).2.

(** A state in which the transport has parsed the verbose response body
    [{d: {GetContextWebInformation: {FormDigestValue: "0xABCDEF"}}}] of a
    digest request made from [fresh_client], and that response. *)
Definition refresh_callback : val := VFun "function () { api.getItem(5); }" VUndef.
Definition digest_requested : state :=
  (refreshDigest (VRef api) refresh_callback fresh_client).2.
Definition digest_received : state :=
  (alloc {[ "d" := VRef 8 ]}
     (alloc {[ "GetContextWebInformation" := VRef 7 ]}
        (alloc {[ "FormDigestValue" := VStr "0xABCDEF" ]} digest_requested).2).2).2.
Definition digest_response : val := VRef 9.

(** A page outside SharePoint: no [_spPageContextInfo] is declared.  The
    caller has built [{siteUrl: "https://example.org"}] to pass to the
    constructor. *)
Definition plain_page : state :=
  (alloc {[ "siteUrl" := VStr "https://example.org" ]}
     (set_globals {[ "console" := VRef 1 ]} page)).2.
Definition plain_options : val := VRef 4.

(** The state after the caller has built [{maxItems: 5000, token: undefined}]
    on the page, and that object. *)
Definition with_settings : state :=
  (alloc (<["maxItems" := VNum 5000]> {[ "token" := VUndef ]}) page).2.
Definition settings : val := VRef 4.

(** The state after the caller has built [{urls: {list: "/lists('{0}')"}}]
    on [docs_client], and that object. *)
Definition with_list_template : state :=
  (alloc {[ "urls" := VRef 7 ]}
     (alloc {[ "list" := VStr "/lists('{0}')" ]} docs_client).2).2.
Definition list_template_argument : loc := 8%positive.

End Page.

(** * Properties *)

(** ** The [format] polyfill *)

Module StringFacts.

Lemma app_nil_l (s : string) : "" +:+ s = s.
Proof. reflexivity. Qed.

Lemma app_assoc (s t u : string) : (s +:+ t) +:+ u = s +:+ t +:+ u.
Proof.
  induction s as [|c s IH]; [done|]. by rewrite !Polyfill.app_cons, IH.
Qed.

End StringFacts.

Module FormatFacts.
Import Polyfill StringFacts.

Example format_two :
  format "/items({1}) of '{0}'" [VStr "Docs"; VNum 5] = "/items(5) of 'Docs'".
Proof. vm_compute. reflexivity. Qed.

(** Replacements are not scanned again, a capture with a leading zero names
    no argument, and an unfinished placeholder is plain text. *)
Example format_edge :
  format "{0}{00}{1}{x}{2{0}}{" [VStr "{1}"; VUndef] = "{1}{00}{1}{x}{2{1}}{".
Proof. vm_compute. reflexivity. Qed.

Lemma span_digits_stop ds c r :
  all_digits ds = true → is_digit c = false →
  span_digits (ds +:+ String c r) = (ds, String c r).
Proof.
  intros Hds Hc. induction ds as [|d ds IH].
  - rewrite app_nil_l. simpl. by rewrite Hc.
  - simpl in Hds. apply andb_true_iff in Hds as [Hd Hds].
    rewrite app_cons. simpl. by rewrite Hd, (IH Hds).
Qed.

Lemma match_placeholder_hit number rest :
  number ≠ "" → all_digits number = true →
  match_placeholder ("{" +:+ number +:+ "}" +:+ rest) = Some (number, rest).
Proof.
  intros Hne Hds. rewrite app_cons, app_nil_l. simpl.
  rewrite app_cons, app_nil_l, span_digits_stop by done.
  by destruct number.
Qed.

Lemma replace_placeholders_hit fn number rest :
  number ≠ "" → all_digits number = true →
  replace_placeholders fn ("{" +:+ number +:+ "}" +:+ rest)
  = to_string (fn ("{" +:+ number +:+ "}") number) +:+ replace_placeholders fn rest.
Proof.
  intros Hne Hds. rewrite replace_placeholders_equation.
  by rewrite match_placeholder_hit.
Qed.

Lemma span_digits_before_brace s rest :
  span_digits (s +:+ String "{" rest)
  = ((span_digits s).1, (span_digits s).2 +:+ String "{" rest).
Proof.
  induction s as [|c s IH]; [done|].
  rewrite app_cons. simpl. destruct (is_digit c); [|done].
  rewrite IH. by destruct (span_digits s).
Qed.

Lemma match_placeholder_before_brace c s rest :
  match_placeholder (String c s +:+ String "{" rest)
  = match match_placeholder (String c s) with
    | Some (number, r) => Some (number, r +:+ String "{" rest)
    | None => None
    end.
Proof.
  simpl. destruct (Ascii.eqb c "{"); [|done].
  rewrite span_digits_before_brace.
  destruct (span_digits s) as [[|d ds] [|c' r]]; simpl; try done.
  rewrite ?app_cons. by destruct (Ascii.eqb c' "}").
Qed.

(** A placeholder that opens right after [pre] is matched on its own: no
    match that starts inside [pre] can run into it. *)
Lemma replace_placeholders_app_brace fn pre rest :
  replace_placeholders fn (pre +:+ String "{" rest)
  = replace_placeholders fn pre +:+ replace_placeholders fn (String "{" rest).
Proof.
  functional induction (replace_placeholders fn pre).
  - by rewrite app_nil_l.
  - rewrite replace_placeholders_equation at 1.
    rewrite match_placeholder_before_brace, e0. rewrite app_cons.
    by rewrite IHs, app_assoc.
  - rewrite replace_placeholders_equation at 1.
    rewrite match_placeholder_before_brace, e0. rewrite app_cons.
    by rewrite IHs.
Qed.

Lemma replace_placeholders_split fn pre number post :
  number ≠ "" → all_digits number = true →
  replace_placeholders fn (pre +:+ "{" +:+ number +:+ "}" +:+ post)
  = replace_placeholders fn pre
      +:+ to_string (fn ("{" +:+ number +:+ "}") number)
      +:+ replace_placeholders fn post.
Proof.
  intros Hne Hds.
  rewrite <- (replace_placeholders_hit fn number post) by done.
  rewrite (app_cons "{" "" (number +:+ _)), app_nil_l.
  by rewrite replace_placeholders_app_brace.
Qed.

(** The decimal rendering of an index is a non-empty run of digits. *)
Lemma pretty_N_char_digit x : is_digit (pretty_N_char x) = true.
Proof. unfold pretty_N_char. by repeat case_match. Qed.

Lemma pretty_N_go_digits x s :
  all_digits s = true → all_digits (pretty_N_go x s) = true.
Proof.
  revert s. induction (N.lt_wf_0 x) as [x _ IH]; intros s Hs.
  destruct (decide (x = 0)%N) as [->|Hx]; [by rewrite pretty_N_go_0|].
  rewrite pretty_N_go_step by lia. apply IH.
  - apply N.div_lt; lia.
  - simpl. by rewrite pretty_N_char_digit.
Qed.

Lemma pretty_N_go_nonempty x s : s ≠ "" → pretty_N_go x s ≠ "".
Proof.
  revert s. induction (N.lt_wf_0 x) as [x _ IH]; intros s Hs.
  destruct (decide (x = 0)%N) as [->|Hx]; [by rewrite pretty_N_go_0|].
  rewrite pretty_N_go_step by lia. apply IH; [apply N.div_lt; lia|done].
Qed.

Lemma pretty_nat_digits (n : nat) : all_digits (pretty n) = true.
Proof.
  unfold pretty, pretty_nat, pretty, pretty_N.
  case_decide; [done|]. by apply pretty_N_go_digits.
Qed.

Lemma pretty_nat_nonempty (n : nat) : pretty n ≠ "".
Proof.
  unfold pretty, pretty_nat, pretty, pretty_N.
  case_decide as Hn; [done|].
  rewrite pretty_N_go_step by lia. by apply pretty_N_go_nonempty.
Qed.

(** [arguments_get] is a lookup by position. *)
Lemma arguments_get_lookup i args (n : nat) :
  arguments_get i args (pretty (i + n)) = default VUndef (args !! n).
Proof.
  revert i n. induction args as [|v args IH]; intros i n; [done|].
  simpl. destruct n as [|n].
  - rewrite Nat.add_0_r. by rewrite decide_True.
  - rewrite decide_False by (intros H%(inj pretty); lia).
    replace (i + S n) with (S i + n) by lia. apply IH.
Qed.

Lemma format_split pre n post args :
  format (pre +:+ "{" +:+ pretty n +:+ "}" +:+ post) args
  = format pre args
      +:+ (if is_defined (default VUndef (args !! n))
           then to_string (default VUndef (args !! n))
           else "{" +:+ pretty n +:+ "}")
      +:+ format post args.
Proof.
  unfold format.
  rewrite replace_placeholders_split
    by auto using pretty_nat_digits, pretty_nat_nonempty.
  pose proof (arguments_get_lookup 0 args n) as Hget.
  simpl in Hget. rewrite Hget.
  by destruct (is_defined _).
Qed.

End FormatFacts.

(** C10.  A placeholder [{n}] that has no [n]th argument (too few
    arguments were given, or the [n]th is [undefined]) is left as it stands:
    formatting a template that contains it yields the formatted text before
    it, the literal [{n}], and the formatted text after it. *)
Theorem format_keeps_placeholder_without_argument
    (pre post : string) (n : nat) (args : list val) :
  length args ≤ n ∨ args !! n = Some VUndef →
  Polyfill.format (pre +:+ "{" +:+ pretty n +:+ "}" +:+ post) args
  = Polyfill.format pre args +:+ "{" +:+ pretty n +:+ "}"
      +:+ Polyfill.format post args.
Proof.
  intros H. rewrite FormatFacts.format_split.
  assert (default VUndef (args !! n) = VUndef) as ->.
  { destruct H as [H%lookup_ge_None_2| ->]; [by rewrite H|done]. }
  cbn [is_defined]. by rewrite !StringFacts.app_assoc.
Qed.

Lemma format_keeps_placeholder_without_argument_witness :
  (length [VStr "Docs"] ≤ 1 ∨ [VStr "Docs"] !! 1 = Some VUndef)
  ∧ Polyfill.format ("/lists('{0}')/items(" +:+ "{" +:+ pretty 1 +:+ "}" +:+ ")")
                    [VStr "Docs"]
    = Polyfill.format "/lists('{0}')/items(" [VStr "Docs"]
        +:+ "{" +:+ pretty 1 +:+ "}" +:+ Polyfill.format ")" [VStr "Docs"]
  ∧ Polyfill.format "/lists('{0}')/items({1})" [VStr "Docs"]
    = "/lists('Docs')/items({1})".
Proof.
  assert (length [VStr "Docs"] ≤ 1 ∨ [VStr "Docs"] !! 1 = Some VUndef) as H
    by (left; simpl; lia).
  split; [exact H|]. split; [|vm_compute; reflexivity].
  exact (format_keeps_placeholder_without_argument
           "/lists('{0}')/items(" ")" 1 [VStr "Docs"] H).
Defined.

(** ** Running the methods on a client *)

Section Client.
Context (st : state) (this o : loc) (opts : gmap string val).
Hypothesis Hclient : client st this o opts.

Lemma this_options {A} (k : val → M A) :
  bind (get_field (VRef this) "options") k st = k (VRef o) st.
Proof.
  destruct Hclient as (inst & Hinst & Ho & _).
  unfold bind, get_field. by rewrite Hinst, Ho.
Qed.

Lemma options_field {A} (name : string) (k : val → M A) :
  bind (get_field (VRef o) name) k st = k (opt opts name) st.
Proof.
  destruct Hclient as (inst & _ & _ & Hopts).
  unfold bind, get_field. by rewrite Hopts.
Qed.

Lemma read_option {A} (name : string) (k : val → M A) :
  bind (get_field (VRef this) "options")
       (λ x, bind (get_field x name) k) st
  = k (opt opts name) st.
Proof. by rewrite this_options, options_field. Qed.

Lemma loadUrl_run url method success error :
  loadUrl (VRef this) url method success error st
  = (Ok (),
     add_request
       {| req_url := url;
          req_type := method;
          req_cache := false;
          req_contentType := opt opts "verbosity";
          req_headers := [("Accept", opt opts "verbosity");
                          ("X-RequestDigest", opt opts "token")];
          req_success := success;
          req_error := error |} st).
Proof. unfold loadUrl. by rewrite !read_option. Qed.

End Client.

Lemma js_add_str_l (s : string) (v : val) :
  js_add (VStr s) v = VStr (s +:+ to_string v).
Proof. reflexivity. Qed.

Lemma js_add_str_r (v : val) (s : string) :
  js_add v (VStr s) = VStr (to_string v +:+ s).
Proof. unfold js_add. by rewrite orb_true_r. Qed.

(** C8.  [loadUrl] hands [$.ajax] one settings object: the [url] and the
    method it was given, unchanged; the configured verbosity as content type
    and as [Accept] header; the configured token as [X-RequestDigest]
    header; and wrappers that forward to the two callbacks.  When the
    configured verbosity is a member of the [Verbosity] enumeration, both
    headers carry that member's literal. *)
Theorem loadUrl_dispatches_request
    (st : state) (this o : loc) (opts : gmap string val)
    (url method : val) (success error : callee) :
  client st this o opts →
  loadUrl (VRef this) url method success error st
  = (Ok (),
     add_request
       {| req_url := url;
          req_type := method;
          req_cache := false;
          req_contentType := opt opts "verbosity";
          req_headers := [("Accept", opt opts "verbosity");
                          ("X-RequestDigest", opt opts "token")];
          req_success := success;
          req_error := error |} st)
  ∧ ∀ v : Verbosity,
      opts !! "verbosity" = Some (VStr (Verbosity_value v)) →
      loadUrl (VRef this) url method success error st
      = (Ok (),
         add_request
           {| req_url := url;
              req_type := method;
              req_cache := false;
              req_contentType := VStr (Verbosity_value v);
              req_headers := [("Accept", VStr (Verbosity_value v));
                              ("X-RequestDigest", opt opts "token")];
              req_success := success;
              req_error := error |} st).
Proof.
  intros Hclient. rewrite (loadUrl_run st this o opts Hclient).
  split; [done|]. intros v Hv. unfold opt. by rewrite Hv.
Qed.

(** On the page, [new SpRestApi()] and [api.lists('Docs')] return the
    instance. *)
Example page_builds_api :
  (new_SpRestApi VUndef Page.page).1 = Ok (VRef Page.api)
  ∧ (lists (VRef Page.api) (VStr "Docs") Page.fresh_client).1
    = Ok (VRef Page.api).
Proof. split; vm_compute; reflexivity. Qed.

Lemma docs_client_ok :
  client Page.docs_client Page.api Page.api_options Page.docs_options.
Proof.
  eexists. split; [reflexivity|]. split; [reflexivity|].
  vm_compute. reflexivity.
Defined.

Lemma docs_client_templates :
  url_template Page.docs_client Page.docs_options "list" urls_list
  ∧ url_template Page.docs_client Page.docs_options "item" urls_item.
Proof. split; (do 2 eexists; split; [reflexivity|]; split; reflexivity). Defined.

Lemma loadUrl_dispatches_request_witness :
  client Page.docs_client Page.api Page.api_options Page.docs_options
  ∧ Page.docs_options !! "verbosity" = Some (VStr (Verbosity_value VERBOSE))
  ∧ loadUrl (VRef Page.api) (VStr "/_api/web") (VStr "DELETE")
      (FromValue Page.console_log) (FromValue Page.console_log)
      Page.docs_client
    = (Ok (),
       add_request
         {| req_url := VStr "/_api/web";
            req_type := VStr "DELETE";
            req_cache := false;
            req_contentType := VStr "application/json;odata=verbose";
            req_headers :=
              [("Accept", VStr "application/json;odata=verbose");
               ("X-RequestDigest", VStr "0x1F2E3D")];
            req_success := FromValue Page.console_log;
            req_error := FromValue Page.console_log |} Page.docs_client).
Proof.
  split; [exact docs_client_ok|]. split; [reflexivity|].
  apply (proj2 (loadUrl_dispatches_request Page.docs_client Page.api
                  Page.api_options Page.docs_options (VStr "/_api/web")
                  (VStr "DELETE") (FromValue Page.console_log)
                  (FromValue Page.console_log) docs_client_ok) VERBOSE).
  reflexivity.
Defined.

(** ** The page-size parameter *)

Lemma no_query_in_empty : ¬ has_query "".
Proof. intros ([|c pre] & post & H); discriminate H. Qed.

Lemma has_query_cons c url :
  has_query (String c url) ↔ c = "?"%char ∨ has_query url.
Proof.
  split.
  - intros ([|c' pre] & post & H).
    + left. by inversion H.
    + right. exists pre, post. by inversion H.
  - intros [-> | (pre & post & ->)].
    + by exists "", url.
    + by exists (String c pre), post.
Qed.

Lemma prefix_question c url :
  String.prefix "?" (String c url) = bool_decide (c = "?"%char).
Proof.
  change (String.prefix "?" (String c url))
    with (match ascii_dec "?" c with
          | left _ => String.prefix "" url
          | right _ => false
          end).
  destruct (ascii_dec "?" c) as [<-|Hne].
  - by destruct url.
  - by rewrite bool_decide_eq_false_2.
Qed.

Lemma index_question url : String.index 0 "?" url ≠ None ↔ has_query url.
Proof.
  induction url as [|c url IH].
  - split; [done|]. intros H. by destruct no_query_in_empty.
  - rewrite has_query_cons.
    change (String.index 0 "?" (String c url))
      with (if String.prefix "?" (String c url) then Some 0
            else match String.index 0 "?" url with
                 | Some n => Some (S n)
                 | None => None
                 end).
    rewrite prefix_question. case_bool_decide as Hc.
    + split; [by left|done].
    + destruct (String.index 0 "?" url) eqn:Hidx.
      * split; [intros _; right; by apply IH|done].
      * split; [done|]. intros [->|Hq]; [done|]. by apply IH in Hq.
Qed.

Lemma includes_query url :
  Polyfill.includes url "?" VUndef = true ↔ has_query url.
Proof.
  unfold Polyfill.includes, Polyfill.indexOf.
  destruct url as [|c url].
  - split; [done|]. intros H. by destruct no_query_in_empty.
  - assert ((String.length (String c url) <? 0 + String.length "?") = false)
      as -> by (apply Nat.ltb_ge; simpl; lia).
    rewrite bool_decide_eq_true. apply index_question.
Qed.

Section ListUrl.
Context (st : state) (this o : loc) (opts : gmap string val).
Hypothesis Hclient : client st this o opts.

Lemma addMaxItems_run url :
  addMaxItems (VRef this) (VStr url) st
  = (Ok (VStr (url +:+ separator url +:+ "$top="
                 +:+ to_string (opt opts "maxItems"))), st).
Proof.
  unfold addMaxItems, call_includes, separator.
  unfold bind at 1, ret. rewrite (read_option st this o opts Hclient).
  simpl truthy.
  destruct (Polyfill.includes url "?" VUndef);
    by rewrite !js_add_str_l, !StringFacts.app_assoc.
Qed.

End ListUrl.

(** C6.  For every URL string, [addMaxItems] returns the URL followed by
    [?] when no question mark occurs in it and by [&] otherwise, then
    [$top=] and the configured [maxItems]. *)
Theorem addMaxItems_appends_page_size
    (st : state) (this o : loc) (opts : gmap string val) (url : string) :
  client st this o opts →
  (¬ has_query url →
     addMaxItems (VRef this) (VStr url) st
     = (Ok (VStr (url +:+ "?" +:+ "$top=" +:+ to_string (opt opts "maxItems"))), st))
  ∧ (has_query url →
     addMaxItems (VRef this) (VStr url) st
     = (Ok (VStr (url +:+ "&" +:+ "$top=" +:+ to_string (opt opts "maxItems"))), st)).
Proof.
  intros Hclient. rewrite (addMaxItems_run st this o opts Hclient).
  unfold separator. rewrite <- includes_query.
  destruct (Polyfill.includes url "?" VUndef); split; intros H; done.
Qed.

Lemma addMaxItems_appends_page_size_witness :
  client Page.docs_client Page.api Page.api_options Page.docs_options
  ∧ ¬ has_query "/_api/web/lists"
  ∧ addMaxItems (VRef Page.api) (VStr "/_api/web/lists") Page.docs_client
    = (Ok (VStr "/_api/web/lists?$top=100"), Page.docs_client)
  ∧ has_query "/_api/web/lists?$select=Title"
  ∧ addMaxItems (VRef Page.api) (VStr "/_api/web/lists?$select=Title")
                Page.docs_client
    = (Ok (VStr "/_api/web/lists?$select=Title&$top=100"), Page.docs_client).
Proof.
  assert (¬ has_query "/_api/web/lists") as Hno.
  { rewrite <- includes_query. by vm_compute. }
  assert (has_query "/_api/web/lists?$select=Title") as Hyes.
  { by exists "/_api/web/lists", "$select=Title". }
  split; [exact docs_client_ok|]. split; [exact Hno|].
  split; [|split; [exact Hyes|]].
  - apply (addMaxItems_appends_page_size Page.docs_client Page.api
             Page.api_options Page.docs_options "/_api/web/lists"
             docs_client_ok). exact Hno.
  - apply (addMaxItems_appends_page_size Page.docs_client Page.api
             Page.api_options Page.docs_options
             "/_api/web/lists?$select=Title" docs_client_ok). exact Hyes.
Defined.

(** ** Single items *)

Lemma bind_ret {A B} (a : A) (k : A → M B) st : bind (ret a) k st = k a st.
Proof. reflexivity. Qed.

Lemma bind_get_field {A} st l obj name (k : val → M A) :
  heap st !! l = Some obj →
  bind (get_field (VRef l) name) k st = k (opt obj name) st.
Proof. intros H. unfold bind, get_field. by rewrite H. Qed.

Lemma format_literal_list_prefix args :
  Polyfill.format "/_api/web/lists/getbytitle('" args
  = "/_api/web/lists/getbytitle('".
Proof. vm_compute. reflexivity. Qed.

Lemma format_literal_items args :
  Polyfill.format "')/items(" args = "')/items(".
Proof. vm_compute. reflexivity. Qed.

Lemma format_literal_items_end args :
  Polyfill.format "')/items" args = "')/items".
Proof. vm_compute. reflexivity. Qed.

Lemma format_literal_paren args : Polyfill.format ")" args = ")".
Proof. vm_compute. reflexivity. Qed.

Lemma format_urls_item title itemId :
  Polyfill.format urls_item [title; itemId]
  = "/_api/web/lists/getbytitle('" +:+ argument_text 0 title
      +:+ "')/items(" +:+ argument_text 1 itemId +:+ ")".
Proof.
  change urls_item
    with ("/_api/web/lists/getbytitle('" +:+ "{" +:+ pretty 0 +:+ "}"
            +:+ ("')/items(" +:+ "{" +:+ pretty 1 +:+ "}" +:+ ")")).
  rewrite FormatFacts.format_split, format_literal_list_prefix.
  rewrite FormatFacts.format_split, format_literal_items, format_literal_paren.
  unfold argument_text. simpl default.
  by rewrite ?StringFacts.app_assoc.
Qed.

Lemma format_urls_list title :
  Polyfill.format urls_list [title]
  = "/_api/web/lists/getbytitle('" +:+ argument_text 0 title +:+ "')/items".
Proof.
  change urls_list
    with ("/_api/web/lists/getbytitle('" +:+ "{" +:+ pretty 0 +:+ "}"
            +:+ "')/items").
  rewrite FormatFacts.format_split, format_literal_list_prefix.
  rewrite format_literal_items_end.
  unfold argument_text. simpl default.
  by rewrite ?StringFacts.app_assoc.
Qed.

Lemma truthy_is_defined v : truthy v = true → is_defined v = true.
Proof. by destruct v. Qed.

Lemma getItem_falsy this itemId st :
  truthy itemId = false →
  getItem this itemId st
  = (Raise (Thrown (VStr "The list item ID must not be empty.")), st).
Proof. intros Ht. unfold getItem. by rewrite Ht. Qed.

Lemma getItem_run st this o opts itemId :
  client st this o opts →
  url_template st opts "item" urls_item →
  truthy itemId = true →
  getItem (VRef this) itemId st
  = (Ok (), add_request (get_request opts (VStr (item_url opts itemId))) st).
Proof.
  intros Hclient (u & urls & Hurls & Hu & Hitem) Ht.
  unfold getItem. rewrite Ht. cbn [negb].
  rewrite (read_option st this o opts Hclient).
  rewrite (read_option st this o opts Hclient).
  unfold opt at 1. rewrite Hurls. simpl default.
  rewrite (bind_get_field st u urls "item" _ Hu).
  unfold opt at 1. rewrite Hitem. simpl default.
  rewrite (read_option st this o opts Hclient).
  unfold call_format. rewrite bind_ret.
  rewrite !(read_option st this o opts Hclient).
  rewrite (loadUrl_run st this o opts Hclient).
  rewrite js_add_str_r, format_urls_item.
  unfold argument_text at 2. by rewrite (truthy_is_defined _ Ht).
Qed.

Lemma item_url_ends opts itemId :
  ends_with (item_url opts itemId) ("items(" +:+ to_string itemId +:+ ")").
Proof.
  exists (to_string (opt opts "siteUrl") +:+ "/_api/web/lists/getbytitle('"
            +:+ argument_text 0 (opt opts "listTitle") +:+ "')/").
  unfold item_url. by rewrite !StringFacts.app_assoc.
Qed.

(** C3.  [getItem] throws (and sends nothing) exactly when [itemId] is
    falsy; for a truthy [itemId] it sends one GET request whose URL is the
    site URL followed by the item template with the list title and the item
    identifier filled in, so the URL ends in [items(<itemId>)]. *)
Theorem getItem_validates_then_requests
    (st : state) (this o : loc) (opts : gmap string val) (itemId : val) :
  client st this o opts →
  url_template st opts "item" urls_item →
  (truthy itemId = false →
     getItem (VRef this) itemId st
     = (Raise (Thrown (VStr "The list item ID must not be empty.")), st))
  ∧ (truthy itemId = true →
     getItem (VRef this) itemId st
     = (Ok (), add_request (get_request opts (VStr (item_url opts itemId))) st)
     ∧ ends_with (item_url opts itemId)
                 ("items(" +:+ to_string itemId +:+ ")")).
Proof.
  intros Hclient Htemplate. split; intros Ht.
  - by apply getItem_falsy.
  - split; [by apply (getItem_run st this o opts)|apply item_url_ends].
Qed.

Lemma getItem_validates_then_requests_witness :
  client Page.docs_client Page.api Page.api_options Page.docs_options
  ∧ url_template Page.docs_client Page.docs_options "item" urls_item
  ∧ getItem (VRef Page.api) (VNum 0) Page.docs_client
    = (Raise (Thrown (VStr "The list item ID must not be empty.")),
       Page.docs_client)
  ∧ getItem (VRef Page.api) VNull Page.docs_client
    = (Raise (Thrown (VStr "The list item ID must not be empty.")),
       Page.docs_client)
  ∧ getItem (VRef Page.api) (VNum 5) Page.docs_client
    = (Ok (),
       add_request
         (get_request Page.docs_options
            (VStr (item_url Page.docs_options (VNum 5))))
         Page.docs_client)
  ∧ item_url Page.docs_options (VNum 5)
    = "https://contoso.sharepoint.com/sites/team/_api/web/lists/getbytitle('Docs')/items(5)".
Proof.
  pose proof (λ itemId,
    getItem_validates_then_requests Page.docs_client Page.api
      Page.api_options Page.docs_options itemId docs_client_ok
      (proj2 docs_client_templates)) as H.
  split; [exact docs_client_ok|].
  split; [exact (proj2 docs_client_templates)|].
  split; [apply (H (VNum 0)); reflexivity|].
  split; [apply (H VNull); reflexivity|].
  split; [apply (H (VNum 5)); reflexivity|].
  vm_compute. reflexivity.
Defined.

(** ** Lists and subfolders *)

Section ListItems.
Context (st : state) (this o : loc) (opts : gmap string val) (tpl : string).
Hypothesis Hclient : client st this o opts.
Hypothesis Htemplate : url_template st opts "list" tpl.

Lemma generateGetAllListItemsUrl_run :
  generateGetAllListItemsUrl (VRef this) st = (Ok (VStr (list_url opts tpl)), st).
Proof.
  destruct Htemplate as (u & urls & Hurls & Hu & Hlist).
  unfold generateGetAllListItemsUrl.
  rewrite !(read_option st this o opts Hclient).
  unfold opt at 1. rewrite Hurls. simpl default.
  rewrite (bind_get_field st u urls "list" _ Hu).
  unfold opt at 1. rewrite Hlist. simpl default.
  rewrite (read_option st this o opts Hclient).
  unfold call_format. rewrite bind_ret, js_add_str_r.
  by rewrite (addMaxItems_run st this o opts Hclient).
Qed.

Lemma bind_generateGetAllListItemsUrl {A} (k : val → M A) :
  bind (generateGetAllListItemsUrl (VRef this)) k st
  = k (VStr (list_url opts tpl)) st.
Proof. unfold bind. by rewrite generateGetAllListItemsUrl_run. Qed.

End ListItems.

Lemma getAllItemsFromListSubfolder_run st this o opts tpl subfolderName :
  client st this o opts →
  url_template st opts "list" tpl →
  getAllItemsFromListSubfolder (VRef this) subfolderName st
  = (Ok (),
     add_request
       (get_request opts
          (VStr (list_url opts tpl
                   +:+ "&$filter=substringof('" +:+ fileref opts subfolderName
                   +:+ "', FileRef)"))) st).
Proof.
  intros Hclient Htemplate.
  unfold getAllItemsFromListSubfolder.
  rewrite (read_option st this o opts Hclient).
  rewrite (bind_generateGetAllListItemsUrl st this o opts tpl Hclient Htemplate).
  rewrite !(read_option st this o opts Hclient).
  rewrite (loadUrl_run st this o opts Hclient).
  rewrite !js_add_str_l. cbn [to_string]. unfold fileref.
  by rewrite !StringFacts.app_assoc.
Qed.

(** With the list title set to [undefined], the placeholder stays in the
    URL. *)
Example undefined_list_title_stays_in_url :
  (generateGetAllListItemsUrl (VRef Page.api)
     (lists (VRef Page.api) VUndef Page.fresh_client).2).1
  = Ok (VStr "https://contoso.sharepoint.com/sites/team/_api/web/lists/getbytitle('{0}')/items?$top=100").
Proof. vm_compute. reflexivity. Qed.

(** C4.  [getAllItemsFromListSubfolder] sends one GET request whose URL is
    the list-collection URL (the one [generateGetAllListItemsUrl] builds)
    followed by [&$filter=substringof('<fileref>', FileRef)], where
    [<fileref>] is [Lists/<listTitle>/<subfolderName>/]; so that path occurs
    in the URL. *)
Theorem getAllItemsFromListSubfolder_filters_by_path
    (st : state) (this o : loc) (opts : gmap string val) (tpl : string)
    (subfolderName : val) :
  client st this o opts →
  url_template st opts "list" tpl →
  let url := list_url opts tpl
               +:+ "&$filter=substringof('" +:+ fileref opts subfolderName
               +:+ "', FileRef)" in
  generateGetAllListItemsUrl (VRef this) st = (Ok (VStr (list_url opts tpl)), st)
  ∧ getAllItemsFromListSubfolder (VRef this) subfolderName st
    = (Ok (), add_request (get_request opts (VStr url)) st)
  ∧ fileref opts subfolderName
    = "Lists/" +:+ to_string (opt opts "listTitle")
        +:+ "/" +:+ to_string subfolderName +:+ "/"
  ∧ contains url (fileref opts subfolderName).
Proof.
  intros Hclient Htemplate url.
  split; [by apply (generateGetAllListItemsUrl_run st this o opts tpl)|].
  split; [by apply (getAllItemsFromListSubfolder_run st this o opts tpl)|].
  split; [reflexivity|].
  exists (list_url opts tpl +:+ "&$filter=substringof('"), "', FileRef)".
  unfold url. by rewrite !StringFacts.app_assoc.
Qed.

Lemma getAllItemsFromListSubfolder_filters_by_path_witness :
  client Page.docs_client Page.api Page.api_options Page.docs_options
  ∧ url_template Page.docs_client Page.docs_options "list" urls_list
  ∧ getAllItemsFromListSubfolder (VRef Page.api) (VStr "Drafts")
      Page.docs_client
    = (Ok (),
       add_request
         (get_request Page.docs_options
            (VStr "https://contoso.sharepoint.com/sites/team/_api/web/lists/getbytitle('Docs')/items?$top=100&$filter=substringof('Lists/Docs/Drafts/', FileRef)"))
         Page.docs_client)
  ∧ fileref Page.docs_options (VStr "Drafts") = "Lists/Docs/Drafts/".
Proof.
  split; [exact docs_client_ok|].
  split; [exact (proj1 docs_client_templates)|].
  destruct (getAllItemsFromListSubfolder_filters_by_path Page.docs_client
              Page.api Page.api_options Page.docs_options urls_list
              (VStr "Drafts") docs_client_ok (proj1 docs_client_templates))
    as (_ & Hrun & _ & _).
  split; [|vm_compute; reflexivity].
  rewrite Hrun. do 3 f_equal.
Defined.

(** ** Configuration *)

Lemma aliased_client_client st this o opts :
  aliased_client st this o opts → client st this o opts.
Proof. intros (inst & ? & ? & ? & ? & ?). by exists inst. Qed.

Lemma merge_lookup l props old k :
  merge l props old !! k
  = match props !! k with
    | Some v => if decide (copied l (k, v)) then Some v else old !! k
    | None => old !! k
    end.
Proof.
  unfold merge. rewrite lookup_union, map_lookup_filter.
  destruct (props !! k) as [v|]; simpl; [|by rewrite (left_id_L None _)].
  case_guard; simpl; [by destruct (old !! k)|].
  by rewrite (left_id_L None _).
Qed.

Lemma merge_keeps l props old k :
  opt props k = VUndef → merge l props old !! k = old !! k.
Proof.
  unfold opt. rewrite merge_lookup. destruct (props !! k) as [v|]; [|done].
  simpl. intros ->. rewrite decide_False; [done|]. by intros (_ & _ & ?).
Qed.

Section Config.
Context (st : state) (this o : loc) (opts : gmap string val).
Hypothesis Halias : aliased_client st this o opts.

Lemma config_run options :
  config (VRef this) options st
  = (Ok (VRef this), configured st o opts options).
Proof.
  destruct Halias as (inst & Hinst & Hopt & Hdef & Hopts & Hne).
  unfold config. rewrite (bind_get_field st this inst _ _ Hinst).
  unfold opt. rewrite Hdef. simpl default.
  unfold extend, own_properties, bind, set_field, ret. cbn beta iota.
  rewrite Hopts. cbn [default heap set_heap from_option id].
  rewrite lookup_insert_ne by done. rewrite Hinst.
  cbn [from_option id]. rewrite (insert_id inst) by done.
  unfold configured, set_heap. cbn [heap globals elements requests calls].
  do 2 f_equal. apply insert_id. by rewrite lookup_insert_ne.
Qed.

Lemma configured_aliased options :
  aliased_client (configured st o opts options) this o
    (merge o (properties_of st options) opts).
Proof.
  destruct Halias as (inst & Hinst & Hopt & Hdef & Hopts & Hne).
  exists inst. unfold configured. simpl.
  rewrite lookup_insert_ne by done. by rewrite lookup_insert_eq.
Qed.

End Config.

(** *** The constructor builds an aliased client *)

Lemma bind_inv {A B} (m : M A) (k : A → M B) st b st' :
  bind m k st = (Ok b, st') →
  ∃ a st1, m st = (Ok a, st1) ∧ k a st1 = (Ok b, st').
Proof.
  unfold bind. destruct (m st) as [[a|e] st1]; [|done]. intros H. by exists a, st1.
Qed.

Lemma reads_ret {A} (a : A) : reads (ret a).
Proof. by intros st r st' [= _ <-]. Qed.

Lemma reads_lookup_global name : reads (lookup_global name).
Proof.
  intros st r st'. unfold lookup_global.
  destruct (globals st !! name); by intros [= _ <-].
Qed.

Lemma reads_get_field v k : reads (get_field v k).
Proof.
  intros st r st'. unfold get_field.
  destruct v; try by intros [= _ <-].
  destruct (heap st !! l); by intros [= _ <-].
Qed.

Lemma reads_getElementById id : reads (getElementById id).
Proof. by intros st r st' [= _ <-]. Qed.

Lemma reads_bind {A B} (m : M A) (k : A → M B) :
  reads m → (∀ a, reads (k a)) → reads (bind m k).
Proof.
  intros Hm Hk st r st'. unfold bind.
  destruct (m st) as [[a|e] st1] eqn:H1; apply Hm in H1 as ->.
  - apply Hk.
  - by intros [= _ <-].
Qed.

Lemma alloc_run o st :
  ∃ l, alloc o st = (Ok (VRef l), set_heap (<[l := o]> (heap st)) st)
       ∧ heap st !! l = None.
Proof.
  exists (fresh (dom (heap st))). split; [done|].
  apply not_elem_of_dom, is_fresh.
Qed.

Lemma bind_ok {A B} (m : M A) (k : A → M B) st a st1 :
  m st = (Ok a, st1) → bind m k st = k a st1.
Proof. intros H. unfold bind. by rewrite H. Qed.

Lemma set_field_run st l k x obj :
  heap st !! l = Some obj →
  set_field (VRef l) k x st
  = (Ok (), set_heap (<[l := <[k := x]> obj]> (heap st)) st).
Proof. intros H. unfold set_field. by rewrite H. Qed.

Lemma extend_run st l options obj :
  heap st !! l = Some obj →
  extend (VRef l) options st
  = (Ok (VRef l),
     set_heap (<[l := merge l (properties_of st options) obj]> (heap st)) st).
Proof.
  intros H. unfold extend, own_properties, bind, ret. cbv beta iota.
  by rewrite H.
Qed.

Lemma new_SpRestApi_aliased options st v st' :
  new_SpRestApi options st = (Ok v, st') →
  ∃ this o opts, v = VRef this ∧ aliased_client st' this o opts.
Proof.
  unfold new_SpRestApi. intros H.
  apply bind_inv in H as (this & st0 & Hthis & H).
  destruct (alloc_run ∅ st) as (t & Ht & Hfresh_t).
  rewrite Ht in Hthis. injection Hthis as <- <-.
  apply bind_inv in H as ([] & st5 & H & [= <- <-]).
  exists t. unfold SpRestApi in H.
  set (st0 := set_heap (<[t:=∅]> (heap st)) st) in *.
  apply bind_inv in H as (console1 & ? & ->%reads_lookup_global & H).
  apply bind_inv in H as (onsuccess & ? & ->%reads_get_field & H).
  apply bind_inv in H as (console2 & ? & ->%reads_lookup_global & H).
  apply bind_inv in H as (onerror & ? & ->%reads_get_field & H).
  apply bind_inv in H as (ctx & ? & ->%reads_lookup_global & H).
  apply bind_inv in H as (siteUrl & ? & Hsite & H).
  assert (x = st0) as ->.
  { revert Hsite. destruct (truthy ctx); [|by apply reads_ret].
    apply reads_bind; auto using reads_lookup_global, reads_get_field. }
  apply bind_inv in H as (el & ? & ->%reads_getElementById & H).
  apply bind_inv in H as (token & ? & Htoken & H).
  assert (x = st0) as ->.
  { revert Htoken. destruct (truthy el); [|by apply reads_ret].
    apply reads_bind; auto using reads_getElementById, reads_get_field. }
  clear Hsite Htoken.
  apply bind_inv in H as (urls & st1 & Hurls & H).
  destruct (alloc_run (<["list":=VStr urls_list]> (<["item":=VStr urls_item]> ∅))
              st0) as (u & Hu & Hfresh_u).
  rewrite Hu in Hurls. injection Hurls as <- <-.
  apply bind_inv in H as (defaults & st2 & Hdefaults & H).
  match type of Hdefaults with alloc ?D ?s = _ =>
    destruct (alloc_run D s) as (d & Hd & Hfresh_d); set (D0 := D) in *
  end.
  rewrite Hd in Hdefaults. injection Hdefaults as <- <-.
  assert (d ≠ t) as Hdt.
  { intros ->. simpl in Hfresh_d.
    destruct (decide (u = t)) as [->|Hut].
    - by rewrite lookup_insert_eq in Hfresh_d.
    - rewrite lookup_insert_ne in Hfresh_d by done.
      by rewrite lookup_insert_eq in Hfresh_d. }
  assert (d ≠ u) as Hdu.
  { intros ->. simpl in Hfresh_d. by rewrite lookup_insert_eq in Hfresh_d. }
  assert (u ≠ t) as Hut.
  { intros ->. simpl in Hfresh_u. by rewrite lookup_insert_eq in Hfresh_u. }
  match type of H with _ ?s = _ => set (s2 := s) in H end.
  assert (heap s2 !! t = Some ∅) as Ht2.
  { simpl. rewrite !lookup_insert_ne by done. by rewrite lookup_insert_eq. }
  assert (heap s2 !! d = Some D0) as Hd2.
  { simpl. by rewrite lookup_insert_eq. }
  rewrite (bind_ok _ _ _ _ _ (set_field_run s2 t "defaultOptions" (VRef d) ∅ Ht2))
    in H.
  set (T1 := <["defaultOptions":=VRef d]> (∅ : gmap string val)) in *.
  set (s3 := set_heap (<[t:=T1]> (heap s2)) s2) in *.
  assert (heap s3 !! t = Some T1) as Ht3.
  { simpl. by rewrite lookup_insert_eq. }
  assert (heap s3 !! d = Some D0) as Hd3.
  { simpl. by rewrite lookup_insert_ne. }
  rewrite (bind_get_field s3 t T1 _ _ Ht3) in H.
  assert (opt T1 "defaultOptions" = VRef d) as Hopt.
  { unfold opt, T1. by rewrite lookup_insert_eq. }
  rewrite Hopt in H.
  rewrite (bind_ok _ _ _ _ _ (extend_run s3 d options D0 Hd3)) in H.
  set (D1 := merge d (properties_of s3 options) D0) in *.
  set (s4 := set_heap (<[d:=D1]> (heap s3)) s3) in *.
  assert (heap s4 !! t = Some T1) as Ht4.
  { simpl. by rewrite lookup_insert_ne. }
  rewrite (set_field_run s4 t "options" (VRef d) T1 Ht4) in H.
  injection H as <-.
  exists d, D1. split; [done|].
  exists (<["options":=VRef d]> T1). simpl.
  rewrite lookup_insert_eq. split; [done|].
  split; [by rewrite lookup_insert_eq|].
  split; [unfold T1; by rewrite lookup_insert_ne, lookup_insert_eq|].
  rewrite lookup_insert_ne by done. rewrite lookup_insert_eq.
  split; [done|congruence].
Qed.

Lemma lists_run st this o opts listTitle :
  aliased_client st this o opts →
  lists (VRef this) listTitle st
  = (Ok (VRef this),
     set_heap (<[o := <["listTitle" := listTitle]> opts]> (heap st)) st)
  ∧ aliased_client
      (set_heap (<[o := <["listTitle" := listTitle]> opts]> (heap st)) st)
      this o (<["listTitle" := listTitle]> opts).
Proof.
  intros (inst & Hinst & Hopt & Hdef & Hopts & Hne). split.
  - unfold lists. rewrite (bind_get_field st this inst _ _ Hinst).
    unfold opt. rewrite Hopt. cbn [default from_option id].
    unfold bind, set_field, ret. by rewrite Hopts.
  - exists inst. simpl. rewrite lookup_insert_ne by done.
    by rewrite lookup_insert_eq.
Qed.

(** C5.  [config] merges the given fields into the options and returns the
    instance itself; every field the argument does not name (or names with
    the value [undefined]) keeps the value it had.  In particular, after
    [config({token: "t"})] followed by [config({listTitle: "X"})] the token
    is still ["t"]. *)
Theorem config_merges_and_keeps_other_fields
    (st : state) (this o : loc) (opts : gmap string val) :
  aliased_client st this o opts →
  (∀ options : val,
     ∃ st' opts',
       config (VRef this) options st = (Ok (VRef this), st')
       ∧ aliased_client st' this o opts'
       ∧ ∀ k, opt (properties_of st options) k = VUndef →
              opts' !! k = opts !! k)
  ∧ (∀ a1 a2 : loc,
       heap st !! a1 = Some {[ "token" := VStr "t" ]} →
       heap st !! a2 = Some {[ "listTitle" := VStr "X" ]} →
       a1 ≠ o → a2 ≠ o →
       ∃ st1 st2 opts2,
         config (VRef this) (VRef a1) st = (Ok (VRef this), st1)
         ∧ config (VRef this) (VRef a2) st1 = (Ok (VRef this), st2)
         ∧ aliased_client st2 this o opts2
         ∧ opts2 !! "token" = Some (VStr "t")
         ∧ opts2 !! "listTitle" = Some (VStr "X")
         ∧ ∀ k, k ≠ "token" → k ≠ "listTitle" → opts2 !! k = opts !! k).
Proof.
  intros Halias. split.
  - intros options. do 2 eexists. split; [by apply config_run|].
    split; [by apply configured_aliased|].
    intros k Hk. by apply merge_keeps.
  - intros a1 a2 Ha1 Ha2 Hne1 Hne2.
    pose proof (configured_aliased st this o opts Halias (VRef a1)) as Halias1.
    set (st1 := configured st o opts (VRef a1)) in *.
    set (opts1 := merge o (properties_of st (VRef a1)) opts) in *.
    exists st1, (configured st1 o opts1 (VRef a2)),
           (merge o (properties_of st1 (VRef a2)) opts1).
    split; [by apply config_run|].
    split; [by apply config_run|].
    split; [by apply configured_aliased|].
    assert (properties_of st (VRef a1) = {[ "token" := VStr "t" ]}) as Hp1.
    { simpl. by rewrite Ha1. }
    assert (properties_of st1 (VRef a2) = {[ "listTitle" := VStr "X" ]}) as Hp2.
    { simpl. rewrite lookup_insert_ne by done. by rewrite Ha2. }
    rewrite Hp2. subst opts1. rewrite Hp1.
    split; [|split].
    + rewrite merge_lookup, lookup_singleton_ne by done.
      rewrite merge_lookup, lookup_singleton_eq.
      by rewrite decide_True.
    + rewrite merge_lookup, lookup_singleton_eq.
      by rewrite decide_True.
    + intros k Hk1 Hk2.
      rewrite merge_lookup, lookup_singleton_ne by done.
      by rewrite merge_lookup, lookup_singleton_ne.
Qed.

Lemma with_arguments_aliased :
  aliased_client Page.with_arguments Page.api Page.api_options
    Page.fresh_options.
Proof.
  eexists. split; [reflexivity|]. split; [reflexivity|].
  split; [reflexivity|]. split; [vm_compute; reflexivity|done].
Defined.

Lemma config_merges_and_keeps_other_fields_witness :
  aliased_client Page.with_arguments Page.api Page.api_options
    Page.fresh_options
  ∧ heap Page.with_arguments !! Page.token_argument
    = Some {[ "token" := VStr "t" ]}
  ∧ heap Page.with_arguments !! Page.listTitle_argument
    = Some {[ "listTitle" := VStr "X" ]}
  ∧ Page.token_argument ≠ Page.api_options
  ∧ Page.listTitle_argument ≠ Page.api_options
  ∧ ∃ st1 st2 opts2,
      config (VRef Page.api) (VRef Page.token_argument) Page.with_arguments
      = (Ok (VRef Page.api), st1)
      ∧ config (VRef Page.api) (VRef Page.listTitle_argument) st1
        = (Ok (VRef Page.api), st2)
      ∧ aliased_client st2 Page.api Page.api_options opts2
      ∧ opts2 !! "token" = Some (VStr "t")
      ∧ opts2 !! "listTitle" = Some (VStr "X")
      ∧ ∀ k, k ≠ "token" → k ≠ "listTitle" →
             opts2 !! k = Page.fresh_options !! k.
Proof.
  assert (heap Page.with_arguments !! Page.token_argument
          = Some {[ "token" := VStr "t" ]}) as H1 by (vm_compute; reflexivity).
  assert (heap Page.with_arguments !! Page.listTitle_argument
          = Some {[ "listTitle" := VStr "X" ]}) as H2 by (vm_compute; reflexivity).
  assert (Page.token_argument ≠ Page.api_options) as N1 by done.
  assert (Page.listTitle_argument ≠ Page.api_options) as N2 by done.
  split; [exact with_arguments_aliased|].
  split; [exact H1|]. split; [exact H2|].
  split; [exact N1|]. split; [exact N2|].
  exact (proj2 (config_merges_and_keeps_other_fields Page.with_arguments
                  Page.api Page.api_options Page.fresh_options
                  with_arguments_aliased)
               Page.token_argument Page.listTitle_argument H1 H2 N1 N2).
Defined.

(** ** The request digest *)

Lemma get_field_truthy st v k :
  truthy v = true → get_field v k st = (Ok (field_value st v k), st).
Proof.
  destruct v; try done. intros _. unfold get_field, field_value.
  by destruct (heap st !! l).
Qed.

Lemma js_and_run ma mb st a :
  ma st = (Ok a, st) →
  js_and ma mb st = if truthy a then mb st else (Ok a, st).
Proof. intros H. unfold js_and, bind. rewrite H. by destruct (truthy a). Qed.

Lemma get_path_truthy_2 st v k1 k2 :
  truthy v = true → truthy (field_value st v k1) = true →
  get_path v [k1; k2] st = (Ok (field_value st (field_value st v k1) k2), st).
Proof.
  intros H1 H2. unfold get_path, bind.
  by rewrite (get_field_truthy st v k1 H1), (get_field_truthy st _ k2 H2).
Qed.

Lemma get_path_truthy_3 st v k1 k2 k3 :
  truthy v = true → truthy (field_value st v k1) = true →
  truthy (field_value st (field_value st v k1) k2) = true →
  get_path v [k1; k2; k3] st
  = (Ok (field_value st (field_value st (field_value st v k1) k2) k3), st).
Proof.
  intros H1 H2 H3. unfold get_path, bind.
  by rewrite (get_field_truthy st v k1 H1), (get_field_truthy st _ k2 H2),
             (get_field_truthy st _ k3 H3).
Qed.

Lemma digest_present_run st data root :
  digest_present data root st = (Ok (digest_of st data root), st).
Proof.
  unfold digest_present, digest_of, digest_path.
  set (r := field_value st data root).
  set (info := field_value st r "GetContextWebInformation").
  assert (js_and (ret data) (get_field data root) st
          = (Ok (if truthy data then r else data), st)) as H1.
  { rewrite (js_and_run _ _ st data) by done.
    destruct (truthy data) eqn:Hd; [by apply get_field_truthy|done]. }
  assert (js_and (js_and (ret data) (get_field data root))
                 (get_path data [root; "GetContextWebInformation"]) st
          = (Ok (if truthy data then if truthy r then info else r else data),
             st)) as H2.
  { rewrite (js_and_run _ _ st _ H1).
    destruct (truthy data) eqn:Hd; [|by rewrite Hd].
    destruct (truthy r) eqn:Hr; [|done].
    by apply get_path_truthy_2. }
  rewrite (js_and_run _ _ st _ H2).
  destruct (truthy data) eqn:Hd; [|by rewrite Hd].
  destruct (truthy r) eqn:Hr; [|by rewrite Hr].
  destruct (truthy info) eqn:Hi; [|done].
  by apply get_path_truthy_3.
Qed.

Lemma refreshDigest_run st this inst o opts callback :
  heap st !! this = Some inst →
  inst !! "options" = Some (VRef o) →
  heap st !! o = Some opts →
  refreshDigest (VRef this) callback st
  = (Ok (),
     add_request
       {| req_url := VStr (to_string (opt inst "siteUrl") +:+ "/_api/contextinfo");
          req_type := VStr "POST";
          req_cache := false;
          req_contentType := opt opts "verbosity";
          req_headers := [("Accept", opt opts "verbosity");
                          ("X-RequestDigest", opt opts "token")];
          req_success := DigestSuccess callback;
          req_error := DigestError |} st).
Proof.
  intros Hinst Ho Hopts. unfold refreshDigest.
  rewrite (bind_get_field st this inst _ _ Hinst).
  rewrite (loadUrl_run st this o opts) by by exists inst.
  by rewrite js_add_str_r.
Qed.

(** C7.  [refreshDigest] sends its request with two handlers of its own.
    When the transport reports a failure, the error handler throws; when it
    reports a success whose body carries a digest under neither [d] nor
    [value], the success handler throws.  In both cases nothing else
    happens: no callback is called and the state is left as it was. *)
Theorem refreshDigest_reports_failure_by_throwing
    (st : state) (this o : loc) (opts : gmap string val) (callback : val) :
  client st this o opts →
  ∃ r, refreshDigest (VRef this) callback st = (Ok (), add_request r st)
       ∧ req_type r = VStr "POST"
       ∧ (∀ st' data,
            on_error r data st'
            = (Raise (Thrown (VStr "Unable to obtain SharePoint authorization token")),
               st'))
       ∧ (∀ st' data,
            truthy (digest_of st' data "d") = false →
            truthy (digest_of st' data "value") = false →
            on_success r data st'
            = (Raise (Thrown (VStr "Unable to obtain SharePoint authorization token.")),
               st')).
Proof.
  intros (inst & Hinst & Ho & Hopts). eexists.
  split; [by apply (refreshDigest_run st this inst o opts)|].
  split; [reflexivity|]. split; [reflexivity|].
  intros st' data Hd Hv. unfold on_success, req_success, call_callee.
  unfold refreshDigest_success, bind.
  by rewrite digest_present_run, Hd, digest_present_run, Hv.
Qed.

Lemma refreshDigest_reports_failure_by_throwing_witness :
  client Page.docs_client Page.api Page.api_options Page.docs_options
  ∧ truthy (digest_of Page.docs_client (VStr "Service Unavailable") "d") = false
  ∧ truthy (digest_of Page.docs_client (VStr "Service Unavailable") "value") = false
  ∧ ∃ r, refreshDigest (VRef Page.api) Page.console_log Page.docs_client
         = (Ok (), add_request r Page.docs_client)
         ∧ on_error r VUndef Page.docs_client
           = (Raise (Thrown (VStr "Unable to obtain SharePoint authorization token")),
              Page.docs_client)
         ∧ on_success r (VStr "Service Unavailable") Page.docs_client
           = (Raise (Thrown (VStr "Unable to obtain SharePoint authorization token.")),
              Page.docs_client).
Proof.
  split; [exact docs_client_ok|]. split; [reflexivity|]. split; [reflexivity|].
  destruct (refreshDigest_reports_failure_by_throwing Page.docs_client
              Page.api Page.api_options Page.docs_options Page.console_log
              docs_client_ok) as (r & Hrun & _ & Herr & Hok).
  exists r. split; [exact Hrun|]. split; [apply Herr|].
  apply Hok; reflexivity.
Defined.

Lemma digest_of_truthy st data root :
  truthy (digest_of st data root) = true →
  truthy data = true
  ∧ truthy (field_value st data root) = true
  ∧ truthy (field_value st (field_value st data root)
                        "GetContextWebInformation") = true
  ∧ digest_of st data root
    = field_value st (field_value st (field_value st data root)
                                  "GetContextWebInformation") "FormDigestValue".
Proof.
  unfold digest_of.
  destruct (truthy data) eqn:Hd; [|by rewrite Hd].
  destruct (truthy (field_value st data root)) eqn:Hr; [|by rewrite Hr].
  destruct (truthy (field_value st _ "GetContextWebInformation")) eqn:Hi;
    [done|by rewrite Hi].
Qed.

Lemma get_digest_run st data root :
  truthy (digest_of st data root) = true →
  get_path data (digest_path root) st = (Ok (digest_of st data root), st).
Proof.
  intros (Hd & Hr & Hi & ->)%digest_of_truthy. by apply get_path_truthy_3.
Qed.

Lemma finish_refresh callback st :
  (if is_function callback
   then let! _ := invoke callback [] in ret ()
   else ret ()) st
  = (Ok (), match callback with
            | VFun src _ => add_call (src, []) st
            | _ => st
            end).
Proof. by destruct callback. Qed.

(** The [success] closure on a response that carries a digest: the digest
    goes to the global [options]; the store, and with it the instance and
    its options, is not touched. *)
Lemma refreshDigest_success_run st callback data :
  truthy (digest_of st data "d") = true
  ∨ truthy (digest_of st data "value") = true →
  ∃ digest,
    refreshDigest_success callback data st
    = (Ok (), digest_stored digest callback st)
    ∧ truthy digest = true
    ∧ heap (digest_stored digest callback st) = heap st.
Proof.
  intros H. unfold refreshDigest_success.
  unfold bind at 1. rewrite digest_present_run.
  destruct (truthy (digest_of st data "d")) eqn:Hd.
  - exists (digest_of st data "d"). split; [|split; [done|by destruct callback]].
    unfold bind at 1. unfold bind at 1. rewrite (get_digest_run _ _ _ Hd).
    unfold set_global. by rewrite finish_refresh.
  - destruct H as [H|Hv]; [done|].
    exists (digest_of st data "value").
    split; [|split; [done|by destruct callback]].
    unfold bind at 1. unfold bind at 1. rewrite digest_present_run, Hv.
    unfold bind at 1. rewrite (get_digest_run _ _ _ Hv).
    unfold set_global. by rewrite finish_refresh.
Qed.

(** Whatever the response, the [success] closure leaves the store as it
    was. *)
Lemma refreshDigest_success_keeps_heap st callback data :
  heap (refreshDigest_success callback data st).2 = heap st.
Proof.
  destruct (truthy (digest_of st data "d")) eqn:Hd.
  - destruct (refreshDigest_success_run st callback data) as (? & -> & _ & H);
      auto.
  - destruct (truthy (digest_of st data "value")) eqn:Hv.
    + destruct (refreshDigest_success_run st callback data) as (? & -> & _ & H);
        auto.
    + unfold refreshDigest_success, bind.
      by rewrite digest_present_run, Hd, digest_present_run, Hv.
Qed.

(** An instance without a [siteUrl] member of its own, which is what the
    constructor builds, asks for the digest at [undefined/_api/contextinfo]. *)
Lemma refreshDigest_url_undefined st this inst o opts callback :
  heap st !! this = Some inst →
  inst !! "options" = Some (VRef o) →
  heap st !! o = Some opts →
  inst !! "siteUrl" = None →
  ∃ r, refreshDigest (VRef this) callback st = (Ok (), add_request r st)
       ∧ req_url r = VStr "undefined/_api/contextinfo".
Proof.
  intros Hinst Ho Hopts Hsite. eexists.
  split; [by apply (refreshDigest_run st this inst o opts)|].
  simpl. unfold opt. by rewrite Hsite.
Qed.

(** C2, on the page: the digest request of a new client goes to
    [undefined/_api/contextinfo], not to the site's endpoint; and when the
    verbose response with the digest ["0xABCDEF"] arrives, the callback is
    called but the token in the options is still the one found on the page,
    the new digest having been written to the global [options]. *)
Theorem refreshDigest_on_page :
  (new_SpRestApi VUndef Page.page).1 = Ok (VRef Page.api)
  ∧ field_value Page.digest_requested (VRef Page.api_options) "siteUrl"
    = VStr Page.site
  ∧ ∃ r st',
      requests Page.digest_requested = [r]
      ∧ req_type r = VStr "POST"
      ∧ req_url r = VStr "undefined/_api/contextinfo"
      ∧ on_success r Page.digest_response Page.digest_received = (Ok (), st')
      ∧ field_value st' (VRef Page.api_options) "token" = VStr "0x1F2E3D"
      ∧ field_value st' (field_value st' (VRef Page.api) "options") "token"
        = VStr "0x1F2E3D"
      ∧ globals st' !! "options" = Some (VStr "0xABCDEF")
      ∧ calls st' = [("function () { api.getItem(5); }", [])].
Proof.
  split; [apply page_builds_api|].
  split; [vm_compute; reflexivity|]. do 2 eexists.
  split; [reflexivity|]. split; [reflexivity|]. split; [reflexivity|].
  split; [vm_compute; reflexivity|].
  split; [vm_compute; reflexivity|]. split; [vm_compute; reflexivity|].
  split; vm_compute; reflexivity.
Qed.

(** ** All items *)

(** Where the page defines no global [generateGetAllListItemsUrl],
    [getAllItems] stops at the call with a ReferenceError. *)
Lemma getAllItems_unbound_identifier st this :
  globals st !! "generateGetAllListItemsUrl" = None →
  getAllItems this st
  = (Raise (ReferenceError "generateGetAllListItemsUrl"), st).
Proof. intros H. unfold getAllItems, bind, lookup_global. by rewrite H. Qed.

(** What [getAllItems] does in general: the outcome depends on what the
    page has bound to the global name. *)
Lemma getAllItems_run st this o opts :
  client st this o opts →
  getAllItems (VRef this) st
  = match globals st !! "generateGetAllListItemsUrl" with
    | None => (Raise (ReferenceError "generateGetAllListItemsUrl"), st)
    | Some (VFun src url) =>
        (Ok (),
         add_request
           {| req_url := url;
              req_type := VStr "GET";
              req_cache := false;
              req_contentType := opt opts "verbosity";
              req_headers := [("Accept", opt opts "verbosity");
                              ("X-RequestDigest", opt opts "token")];
              req_success := FromValue (opt opts "onsuccess");
              req_error := FromValue (opt opts "onerror") |}
           (add_call (src, []) st))
    | Some _ => (Raise TypeError, st)
    end.
Proof.
  intros Hclient. unfold getAllItems. unfold bind at 1. unfold lookup_global.
  destruct (globals st !! "generateGetAllListItemsUrl") as [f|]; [|done].
  unfold bind at 1. unfold invoke. destruct f; try reflexivity.
  assert (client (add_call (src, []) st) this o opts) as Hc by exact Hclient.
  rewrite !(read_option _ this o opts Hc).
  by rewrite (loadUrl_run _ this o opts Hc).
Qed.

(** C1, on the page: [getAllItems] raises a ReferenceError and sends no
    request, although the method [generateGetAllListItemsUrl] it means to
    call builds the list-collection URL with the page size. *)
Theorem getAllItems_on_page :
  (new_SpRestApi VUndef Page.page).1 = Ok (VRef Page.api)
  ∧ getAllItems (VRef Page.api) Page.docs_client
    = (Raise (ReferenceError "generateGetAllListItemsUrl"), Page.docs_client)
  ∧ requests Page.docs_client = []
  ∧ generateGetAllListItemsUrl (VRef Page.api) Page.docs_client
    = (Ok (VStr "https://contoso.sharepoint.com/sites/team/_api/web/lists/getbytitle('Docs')/items?$top=100"),
       Page.docs_client).
Proof.
  split; [apply page_builds_api|].
  split; [by apply getAllItems_unbound_identifier|].
  split; [reflexivity|].
  rewrite (generateGetAllListItemsUrl_run Page.docs_client Page.api
             Page.api_options Page.docs_options urls_list docs_client_ok
             (proj1 docs_client_templates)).
  vm_compute. reflexivity.
Qed.

(** C9, on the page: with [recursiveFetch] true and with it false,
    [getAllItems] raises the same ReferenceError and no request is sent. *)
Theorem getAllItems_on_page_either_flag :
  field_value Page.docs_client (VRef Page.api_options) "recursiveFetch"
  = VBool true
  ∧ field_value Page.single_request_client (VRef Page.api_options)
                "recursiveFetch"
    = VBool false
  ∧ getAllItems (VRef Page.api) Page.docs_client
    = (Raise (ReferenceError "generateGetAllListItemsUrl"), Page.docs_client)
  ∧ getAllItems (VRef Page.api) Page.single_request_client
    = (Raise (ReferenceError "generateGetAllListItemsUrl"),
       Page.single_request_client)
  ∧ requests Page.docs_client = []
  ∧ requests Page.single_request_client = [].
Proof.
  split; [vm_compute; reflexivity|]. split; [vm_compute; reflexivity|].
  split; [by apply getAllItems_unbound_identifier|].
  split; [by apply getAllItems_unbound_identifier|].
  split; reflexivity.
Qed.

(** ** The [recursiveFetch] flag is never read *)

Section Flag.
Context (st : state) (this o : loc) (opts : gmap string val) (v : val).
Hypothesis Hclient : client st this o opts.
Hypothesis Hne : this ≠ o.

Let opts' : gmap string val := <["recursiveFetch" := v]> opts.

Lemma with_flag_client : client (with_flag v o opts st) this o opts'.
Proof.
  destruct Hclient as (inst & Hinst & Ho & Hopts).
  exists inst. unfold with_flag. simpl.
  rewrite lookup_insert_ne by done. by rewrite lookup_insert_eq.
Qed.

Lemma with_flag_opt k : k ≠ "recursiveFetch" → opt opts' k = opt opts k.
Proof. intros Hk. unfold opt, opts'. by rewrite lookup_insert_ne. Qed.

Lemma with_flag_template name tpl :
  name ≠ "recursiveFetch" →
  url_template st opts name tpl →
  url_template (with_flag v o opts st) opts' name tpl.
Proof.
  intros Hname_ne (u & urls & Hurls & Hu & Hname).
  destruct Hclient as (inst & Hinst & Ho & Hopts).
  assert (opts' !! "urls" = Some (VRef u)) as Hurls'.
  { unfold opts'. by rewrite lookup_insert_ne. }
  destruct (decide (u = o)) as [->|Huo].
  - exists o, opts'. split; [done|]. unfold with_flag. simpl.
    rewrite lookup_insert_eq. split; [done|].
    assert (urls = opts) as -> by congruence.
    unfold opts'. by rewrite lookup_insert_ne.
  - exists u, urls. split; [done|]. unfold with_flag. simpl.
    by rewrite lookup_insert_ne.
Qed.

Lemma with_flag_list_url tpl : list_url opts' tpl = list_url opts tpl.
Proof. unfold list_url. by rewrite !with_flag_opt. Qed.

Lemma recursiveFetch_ignored_by_loadUrl url method success error :
  ∃ r, loadUrl (VRef this) url method success error st
       = (Ok (), add_request r st)
       ∧ loadUrl (VRef this) url method success error (with_flag v o opts st)
         = (Ok (), add_request r (with_flag v o opts st)).
Proof.
  eexists. split; [by apply (loadUrl_run st this o opts)|].
  rewrite (loadUrl_run _ this o opts' with_flag_client).
  by rewrite !with_flag_opt.
Qed.

Lemma recursiveFetch_ignored_by_getItem itemId :
  url_template st opts "item" urls_item →
  truthy itemId = true →
  ∃ r, getItem (VRef this) itemId st = (Ok (), add_request r st)
       ∧ getItem (VRef this) itemId (with_flag v o opts st)
         = (Ok (), add_request r (with_flag v o opts st)).
Proof.
  intros Htpl Ht. eexists.
  apply with_flag_template in Htpl as Htpl'; [|done].
  split; [by apply (getItem_run st this o opts)|].
  rewrite (getItem_run _ this o opts' itemId with_flag_client Htpl' Ht).
  unfold get_request, item_url. by rewrite !with_flag_opt.
Qed.

Lemma recursiveFetch_ignored_by_getAllItemsFromListSubfolder tpl sub :
  url_template st opts "list" tpl →
  ∃ r, getAllItemsFromListSubfolder (VRef this) sub st
       = (Ok (), add_request r st)
       ∧ getAllItemsFromListSubfolder (VRef this) sub (with_flag v o opts st)
         = (Ok (), add_request r (with_flag v o opts st)).
Proof.
  intros Htpl. eexists.
  apply with_flag_template in Htpl as Htpl'; [|done].
  split; [by apply (getAllItemsFromListSubfolder_run st this o opts tpl)|].
  rewrite (getAllItemsFromListSubfolder_run _ this o opts' tpl sub
             with_flag_client Htpl').
  unfold get_request, fileref.
  by rewrite with_flag_list_url, !with_flag_opt.
Qed.

(** [getAllItems], whatever the global [generateGetAllListItemsUrl] is:
    the same outcome and the same requests with either flag. *)
Lemma recursiveFetch_ignored_by_getAllItems :
  (getAllItems (VRef this) st).1
  = (getAllItems (VRef this) (with_flag v o opts st)).1
  ∧ requests (getAllItems (VRef this) st).2
    = requests (getAllItems (VRef this) (with_flag v o opts st)).2.
Proof.
  rewrite (getAllItems_run st this o opts Hclient).
  rewrite (getAllItems_run _ this o opts' with_flag_client).
  change (globals (with_flag v o opts st)) with (globals st).
  destruct (globals st !! "generateGetAllListItemsUrl") as [[]|]; try done.
  by rewrite !with_flag_opt.
Qed.

End Flag.

(** * Further properties *)

(** ** The [includes] polyfill *)

Module IncludesFacts.
Import StringFacts.

Lemma prefix_nil s : String.prefix "" s = true.
Proof. by destruct s. Qed.

Lemma prefix_cons a sub b s :
  String.prefix (String a sub) (String b s)
  = if decide (a = b) then String.prefix sub s else false.
Proof.
  change (String.prefix (String a sub) (String b s))
    with (match ascii_dec a b with
          | left _ => String.prefix sub s
          | right _ => false
          end).
  destruct (ascii_dec a b); by case_decide.
Qed.

Lemma prefix_spec sub s :
  String.prefix sub s = true ↔ ∃ post, s = sub +:+ post.
Proof.
  revert s. induction sub as [|a sub IH]; intros s.
  - rewrite prefix_nil. split; [by exists s|done].
  - destruct s as [|b s].
    + split; [done|]. by intros (post & ?).
    + rewrite prefix_cons. case_decide as Hab.
      * subst b. rewrite IH. split.
        -- intros (post & ->). by exists post.
        -- intros (post & H). exists post. by injection H.
      * split; [done|]. intros (post & H). by injection H.
Qed.

Lemma index_nil n sub :
  String.index n sub "" = match n, sub with 0, "" => Some 0 | _, _ => None end.
Proof. by destruct n, sub. Qed.

Lemma index_cons_0 sub b s :
  String.index 0 sub (String b s)
  = if String.prefix sub (String b s) then Some 0
    else S <$> String.index 0 sub s.
Proof. reflexivity. Qed.

Lemma index_cons_S n sub b s :
  String.index (S n) sub (String b s) = S <$> String.index n sub s.
Proof. reflexivity. Qed.

Lemma index_occurs n sub s :
  String.index n sub s ≠ None ↔ occurs_from n s sub.
Proof.
  revert n. induction s as [|b s IH]; intros n.
  - rewrite index_nil. split.
    + destruct n, sub; try done. intros _. by exists "", "".
    + intros ([|??] & post & Heq & Hn); [|done].
      destruct sub; [|done]. simpl in Hn. by replace n with 0 by lia.
  - destruct n as [|n].
    + rewrite index_cons_0.
      destruct (String.prefix sub (String b s)) eqn:Hp.
      * split; [|done]. intros _.
        apply prefix_spec in Hp as (post & ->). exists "", post. simpl.
        split; [done|lia].
      * split.
        -- intros H. destruct (String.index 0 sub s) eqn:Hi; [|done].
           destruct (proj1 (IH 0)) as (pre & post & -> & _); [by rewrite Hi|].
           exists (String b pre), post. split; [done|lia].
        -- intros ([|c pre] & post & Heq & _).
           ++ rewrite app_nil_l in Heq.
              assert (String.prefix sub (String b s) = true); [|congruence].
              apply prefix_spec. by exists post.
           ++ injection Heq as -> ->.
              destruct (String.index 0 sub (pre +:+ sub +:+ post)) eqn:Hi;
                [done|].
              exfalso. revert Hi. apply IH. exists pre, post. split; [done|lia].
    + rewrite index_cons_S. split.
      * intros H. destruct (String.index n sub s) eqn:Hi; [|done].
        destruct (proj1 (IH n)) as (pre & post & -> & Hn); [by rewrite Hi|].
        exists (String b pre), post. split; [done|simpl; lia].
      * intros ([|c pre] & post & Heq & Hn); [simpl in Hn; lia|].
        injection Heq as -> ->.
        destruct (String.index n sub (pre +:+ sub +:+ post)) eqn:Hi; [done|].
        exfalso. revert Hi. apply IH. exists pre, post.
        split; [done|simpl in Hn; lia].
Qed.

Lemma occurs_from_length n s sub :
  occurs_from n s sub → n + String.length sub ≤ String.length s.
Proof.
  intros (pre & post & -> & Hn). rewrite !Polyfill.length_app. lia.
Qed.

Lemma includes_occurs s sub start :
  Polyfill.includes s sub start = true
  ↔ occurs_from (match start with VNum n => Z.to_nat n | _ => 0 end) s sub.
Proof.
  unfold Polyfill.includes, Polyfill.indexOf.
  set (n := match start with VNum n => Z.to_nat n | _ => 0 end).
  destruct (String.length s <? n + String.length sub) eqn:Hlen.
  - apply Nat.ltb_lt in Hlen. split; [done|].
    intros H%occurs_from_length. lia.
  - rewrite bool_decide_eq_true. apply index_occurs.
Qed.

Lemma split_at n s :
  n ≤ String.length s → ∃ pre post, s = pre +:+ post ∧ String.length pre = n.
Proof.
  revert n. induction s as [|c s IH]; intros n Hn.
  - exists "", "". simpl in *. split; [done|lia].
  - destruct n as [|n]; [by exists "", (String c s)|].
    destruct (IH n) as (pre & post & -> & Hlen); [simpl in Hn; lia|].
    exists (String c pre), post. split; [done|simpl; lia].
Qed.

Lemma occurs_from_0 s sub : occurs_from 0 s sub ↔ contains s sub.
Proof.
  split.
  - intros (pre & post & -> & _). by exists pre, post.
  - intros (pre & post & ->). exists pre, post. split; [done|lia].
Qed.

Lemma includes_contains s sub :
  Polyfill.includes s sub VUndef = true ↔ contains s sub.
Proof. by rewrite includes_occurs, occurs_from_0. Qed.

Lemma not_contains s sub :
  Polyfill.includes s sub VUndef = false → ¬ contains s sub.
Proof. rewrite <- includes_contains. by intros ->. Qed.

End IncludesFacts.

(** X1.  The [includes] polyfill answers whether [search] occurs in the
    string at or after position [start]: with [start] left out or not a
    number the whole string is searched, a negative [start] counts as zero,
    and a [start] past the end finds nothing, not even the empty string. *)
Theorem includes_finds_occurrences (s search : string) (start : val) :
  let from := match start with VNum n => Z.to_nat n | _ => 0 end in
  (Polyfill.includes s search start = true
   ↔ ∃ pre post, s = pre +:+ search +:+ post ∧ from ≤ String.length pre)
  ∧ (String.length s < from → Polyfill.includes s search start = false)
  ∧ (from ≤ String.length s → Polyfill.includes s "" start = true).
Proof.
  intros from. split; [apply IncludesFacts.includes_occurs|]. split.
  - intros Hlen. destruct (Polyfill.includes s search start) eqn:H; [|done].
    apply IncludesFacts.includes_occurs, IncludesFacts.occurs_from_length in H.
    fold from in H. lia.
  - intros Hlen. apply IncludesFacts.includes_occurs. fold from.
    destruct (IncludesFacts.split_at from s Hlen) as (pre & post & -> & Hpre).
    exists pre, post. split; [done|lia].
Qed.

Lemma includes_finds_occurrences_witness :
  Polyfill.includes "a/b" "" (VNum 7) = false
  ∧ Polyfill.includes "a?b?c" "" (VNum 2) = true
  ∧ Polyfill.includes "a?b?c" "?" (VNum 2) = true
  ∧ Polyfill.includes "a?b/c" "?" (VNum 2) = false
  ∧ Polyfill.includes "a?b/c" "?" (VNum (-2)) = true.
Proof.
  split.
  { apply (proj1 (proj2 (includes_finds_occurrences "a/b" "" (VNum 7)))).
    simpl. lia. }
  split.
  { apply (proj2 (proj2 (includes_finds_occurrences "a?b?c" "" (VNum 2)))).
    simpl. lia. }
  split.
  { apply (proj1 (includes_finds_occurrences "a?b?c" "?" (VNum 2))).
    exists "a?b", "c". split; [reflexivity|simpl; lia]. }
  split; reflexivity.
Defined.
(** ** More on [format] *)

Module MoreFormatFacts.
Import Polyfill StringFacts FormatFacts.

Lemma arguments_get_all_undefined i args number :
  Forall (λ v, v = VUndef) args → arguments_get i args number = VUndef.
Proof.
  intros H. revert i. induction H as [|v args -> _ IH]; intros i; [done|].
  simpl. case_decide; [done|apply IH].
Qed.

Lemma match_placeholder_no_brace c s :
  c ≠ "{"%char → match_placeholder (String c s) = None.
Proof.
  intros Hc. simpl. by destruct (Ascii.eqb_spec c "{").
Qed.

(** The most significant digit of a positive number is not a zero. *)
Lemma pretty_N_go_head x s :
  (0 < x)%N → ∃ c t, pretty_N_go x s = String c t ∧ c ≠ "0"%char.
Proof.
  revert s. induction (N.lt_wf_0 x) as [x _ IH]; intros s Hx.
  rewrite pretty_N_go_step by done.
  destruct (decide (x < 10)%N) as [Hlt|Hge].
  - rewrite N.div_small by done. rewrite pretty_N_go_0.
    rewrite N.mod_small by done. do 2 eexists. split; [done|].
    assert (x = 1 ∨ x = 2 ∨ x = 3 ∨ x = 4 ∨ x = 5 ∨ x = 6
            ∨ x = 7 ∨ x = 8 ∨ x = 9)%N as Hx' by lia.
    repeat (destruct Hx' as [->|Hx']; [done|]). by subst.
  - apply IH.
    + apply N.div_lt; lia.
    + apply N.div_str_pos; lia.
Qed.

Lemma pretty_nat_leading_zero (n : nat) c s : pretty n ≠ String "0" (String c s).
Proof.
  unfold pretty, pretty_nat, pretty, pretty_N.
  case_decide as Hn; [done|].
  destruct (pretty_N_go_head (N.of_nat n) "") as (c' & t & -> & Hc); [lia|].
  congruence.
Qed.

Lemma arguments_get_leading_zero i args c s :
  arguments_get i args (String "0" (String c s)) = VUndef.
Proof.
  revert i. induction args as [|v args IH]; intros i; [done|].
  simpl. rewrite decide_False by apply pretty_nat_leading_zero. apply IH.
Qed.

End MoreFormatFacts.

(** X2.  A placeholder [{n}] whose [n]th argument is given and is not
    [undefined] is replaced by the string conversion of that argument; the
    text before and after it is formatted on its own, and the inserted text
    is not scanned for placeholders again. *)
Theorem format_substitutes_argument
    (pre post : string) (n : nat) (args : list val) (v : val) :
  args !! n = Some v → v ≠ VUndef →
  Polyfill.format (pre +:+ "{" +:+ pretty n +:+ "}" +:+ post) args
  = Polyfill.format pre args +:+ to_string v +:+ Polyfill.format post args.
Proof.
  intros Hn Hv. rewrite FormatFacts.format_split, Hn. simpl default.
  by destruct v.
Qed.

Lemma format_substitutes_argument_witness :
  [VStr "Docs"; VStr "{0}"] !! 1 = Some (VStr "{0}")
  ∧ VStr "{0}" ≠ VUndef
  ∧ Polyfill.format ("('{0}')/items(" +:+ "{" +:+ pretty 1 +:+ "}" +:+ ")")
                    [VStr "Docs"; VStr "{0}"]
    = Polyfill.format "('{0}')/items(" [VStr "Docs"; VStr "{0}"]
        +:+ to_string (VStr "{0}")
        +:+ Polyfill.format ")" [VStr "Docs"; VStr "{0}"]
  ∧ Polyfill.format "('{0}')/items({1})" [VStr "Docs"; VStr "{0}"]
    = "('Docs')/items({0})".
Proof.
  split; [reflexivity|]. split; [discriminate|].
  split; [|vm_compute; reflexivity].
  apply (format_substitutes_argument "('{0}')/items(" ")" 1
           [VStr "Docs"; VStr "{0}"] (VStr "{0}")); [reflexivity|discriminate].
Defined.

(** X3.  When no argument is given, or every argument is [undefined],
    [format] returns its text unchanged, whatever placeholders it holds. *)
Theorem format_without_arguments_is_identity (s : string) (args : list val) :
  Forall (λ v, v = VUndef) args → Polyfill.format s args = s.
Proof.
  intros Hargs. unfold Polyfill.format.
  functional induction
    (Polyfill.replace_placeholders
       (λ match_ number,
          if is_defined (Polyfill.arguments_get 0 args number)
          then Polyfill.arguments_get 0 args number else VStr match_) s).
  - done.
  - rewrite IHs0.
    rewrite (MoreFormatFacts.arguments_get_all_undefined 0 args number Hargs).
    simpl. apply Polyfill.match_placeholder_shape in e0.
    rewrite e0. by rewrite !StringFacts.app_assoc.
  - by rewrite IHs0.
Qed.

Lemma format_without_arguments_is_identity_witness :
  Forall (λ v, v = VUndef) [VUndef; VUndef]
  ∧ Polyfill.format "/lists('{0}')/items({1})" [VUndef; VUndef]
    = "/lists('{0}')/items({1})".
Proof.
  assert (Forall (λ v, v = VUndef) [VUndef; VUndef]) as H
    by (repeat constructor).
  split; [exact H|].
  exact (format_without_arguments_is_identity "/lists('{0}')/items({1})"
           [VUndef; VUndef] H).
Defined.

(** X4.  Text in which no opening brace occurs is returned unchanged by
    [format], whatever the arguments. *)
Theorem format_without_brace_is_identity (s : string) (args : list val) :
  ¬ contains s "{" → Polyfill.format s args = s.
Proof.
  unfold Polyfill.format. intros Hno.
  induction s as [|c s IH].
  - by rewrite Polyfill.replace_placeholders_equation.
  - rewrite Polyfill.replace_placeholders_equation.
    rewrite MoreFormatFacts.match_placeholder_no_brace.
    + f_equal. apply IH. intros (pre & post & ->).
      apply Hno. by exists (String c pre), post.
    + intros ->. apply Hno. by exists "", s.
Qed.

Lemma format_without_brace_is_identity_witness :
  ¬ contains "/_api/contextinfo" "{"
  ∧ Polyfill.format "/_api/contextinfo" [VStr "Docs"] = "/_api/contextinfo".
Proof.
  assert (¬ contains "/_api/contextinfo" "{") as H
    by (apply IncludesFacts.not_contains; reflexivity).
  split; [exact H|].
  exact (format_without_brace_is_identity "/_api/contextinfo" [VStr "Docs"] H).
Defined.

(** X5.  A placeholder whose number is written with a leading zero, such
    as [{01}], names no argument and is always left as it stands. *)
Theorem format_keeps_placeholder_with_leading_zero
    (pre post digits : string) (c : ascii) (args : list val) :
  Polyfill.is_digit c = true → Polyfill.all_digits digits = true →
  let number := String "0" (String c digits) in
  Polyfill.format (pre +:+ "{" +:+ number +:+ "}" +:+ post) args
  = Polyfill.format pre args +:+ "{" +:+ number +:+ "}"
      +:+ Polyfill.format post args.
Proof.
  intros Hc Hds number. unfold Polyfill.format.
  rewrite FormatFacts.replace_placeholders_split.
  - subst number.
    rewrite !MoreFormatFacts.arguments_get_leading_zero. cbn [is_defined to_string].
    by rewrite !StringFacts.app_assoc.
  - done.
  - simpl. by rewrite Hc, Hds.
Qed.

Lemma format_keeps_placeholder_with_leading_zero_witness :
  Polyfill.is_digit "1" = true ∧ Polyfill.all_digits "" = true
  ∧ Polyfill.format ("items(" +:+ "{" +:+ "01" +:+ "}" +:+ ")")
                    [VStr "Docs"; VNum 5]
    = Polyfill.format "items(" [VStr "Docs"; VNum 5] +:+ "{" +:+ "01" +:+ "}"
        +:+ Polyfill.format ")" [VStr "Docs"; VNum 5]
  ∧ Polyfill.format "items({01}) and items({1})" [VStr "Docs"; VNum 5]
    = "items({01}) and items(5)".
Proof.
  split; [reflexivity|]. split; [reflexivity|].
  split; [|vm_compute; reflexivity].
  apply (format_keeps_placeholder_with_leading_zero "items(" ")" "" "1"
           [VStr "Docs"; VNum 5]); reflexivity.
Defined.
(** ** The constructor *)

Module ConstructorFacts.

Lemma lookup_global_run st name v :
  globals st !! name = Some v → lookup_global name st = (Ok v, st).
Proof. intros H. unfold lookup_global. by rewrite H. Qed.

Lemma get_field_defined st v k :
  v ≠ VUndef → v ≠ VNull → get_field v k st = (Ok (field_value st v k), st).
Proof.
  intros H1 H2. destruct v; try done. unfold get_field, field_value.
  by destruct (heap st !! l).
Qed.

Lemma field_value_alloc st l obj v k :
  heap st !! l = None → obj = ∅ ∨ (∀ a, v = VRef a → a ≠ l) →
  field_value (set_heap (<[l := obj]> (heap st)) st) v k = field_value st v k.
Proof.
  intros Hl Hobj. destruct v; try done. simpl.
  destruct (decide (l0 = l)) as [->|Hne].
  - rewrite lookup_insert_eq, Hl. destruct Hobj as [->|H]; [done|].
    by destruct (H l).
  - by rewrite lookup_insert_ne.
Qed.

Lemma site_run st ctx :
  (if truthy ctx
   then let! ctx' := lookup_global "_spPageContextInfo" in
        get_field ctx' "webAbsoluteUrl"
   else ret (VStr "")) st
  = (if truthy ctx
     then (let! ctx' := lookup_global "_spPageContextInfo" in
           get_field ctx' "webAbsoluteUrl") st
     else (Ok (VStr ""), st)).
Proof. by destruct (truthy ctx). Qed.

Lemma siteUrl_run st ctx :
  globals st !! "_spPageContextInfo" = Some ctx →
  (if truthy ctx
   then let! ctx' := lookup_global "_spPageContextInfo" in
        get_field ctx' "webAbsoluteUrl"
   else ret (VStr "")) st
  = (Ok (page_siteUrl st ctx), st).
Proof.
  intros H. unfold page_siteUrl. destruct (truthy ctx) eqn:Ht; [|done].
  rewrite (bind_ok _ _ _ _ _ (lookup_global_run st _ _ H)).
  by apply get_field_truthy.
Qed.

Lemma getElementById_run st id :
  getElementById id st = (Ok (default VNull (elements st !! id)), st).
Proof. reflexivity. Qed.

Lemma token_run st :
  (if truthy (default VNull (elements st !! "__REQUESTDIGEST"))
   then let! el' := getElementById "__REQUESTDIGEST" in get_field el' "value"
   else ret (VStr "")) st
  = (Ok (page_token st), st).
Proof.
  unfold page_token.
  destruct (truthy (default VNull (elements st !! "__REQUESTDIGEST"))) eqn:Ht;
    [|done].
  rewrite (bind_ok _ _ _ _ _ (getElementById_run st _)).
  by apply get_field_truthy.
Qed.

Lemma page_siteUrl_alloc st l ctx :
  heap st !! l = None →
  page_siteUrl (set_heap (<[l := ∅]> (heap st)) st) ctx = page_siteUrl st ctx.
Proof.
  intros H. unfold page_siteUrl. destruct (truthy ctx); [|done].
  apply field_value_alloc; auto.
Qed.

Lemma page_token_alloc st l :
  heap st !! l = None →
  page_token (set_heap (<[l := ∅]> (heap st)) st) = page_token st.
Proof.
  intros H. unfold page_token. simpl elements.
  destruct (truthy _); [|done]. apply field_value_alloc; auto.
Qed.

Lemma properties_of_frame st h' v :
  well_scoped st v →
  (∀ l obj, heap st !! l = Some obj → h' !! l = Some obj) →
  properties_of (set_heap h' st) v = properties_of st v.
Proof.
  intros Hv Hframe. destruct v; try done. simpl.
  destruct (Hv l eq_refl) as [obj Hobj]. by rewrite (Hframe _ _ Hobj), Hobj.
Qed.

(** The whole run of [new SpRestApi(options)] on a page. *)
Lemma new_SpRestApi_run options st cns ctx :
  page_bound st cns ctx →
  well_scoped st options →
  ∃ t u d,
    heap st !! t = None ∧ heap st !! u = None ∧ heap st !! d = None
    ∧ t ≠ u ∧ t ≠ d ∧ u ≠ d
    ∧ new_SpRestApi options st
      = (Ok (VRef t),
         set_heap
           (<[t := <["options" := VRef d]> (<["defaultOptions" := VRef d]> ∅)]>
              (<[d := merge d (properties_of st options)
                        (constructor_defaults st cns ctx u)]>
                 (<[u := default_urls]> (heap st))))
           st).
Proof.
  intros (Hcns & Hc1 & Hc2 & Hctx) Hscoped.
  destruct (alloc_run ∅ st) as (t & Ht & Hfresh_t).
  set (st0 := set_heap (<[t:=∅]> (heap st)) st) in *.
  destruct (alloc_run default_urls st0) as (u & Hu & Hfresh_u).
  set (st1 := set_heap (<[u:=default_urls]> (heap st0)) st0) in *.
  set (D0 := constructor_defaults st cns ctx u).
  destruct (alloc_run D0 st1) as (d & Hd & Hfresh_d).
  set (s2 := set_heap (<[d:=D0]> (heap st1)) st1) in *.
  assert (u ≠ t) as Hut.
  { intros ->. simpl in Hfresh_u. by rewrite lookup_insert_eq in Hfresh_u. }
  assert (d ≠ u) as Hdu.
  { intros ->. simpl in Hfresh_d. by rewrite lookup_insert_eq in Hfresh_d. }
  assert (d ≠ t) as Hdt.
  { intros ->. simpl in Hfresh_d.
    rewrite lookup_insert_ne in Hfresh_d by done.
    by rewrite lookup_insert_eq in Hfresh_d. }
  assert (heap st !! u = None) as Hfu.
  { simpl in Hfresh_u. by rewrite lookup_insert_ne in Hfresh_u. }
  assert (heap st !! d = None) as Hfd.
  { simpl in Hfresh_d. by rewrite !lookup_insert_ne in Hfresh_d. }
  exists t, u, d. do 6 (split; [done|]).
  unfold new_SpRestApi. rewrite (bind_ok _ _ _ _ _ Ht).
  unfold SpRestApi.
  assert
    (SpRestApi (VRef t) options st0
     = (Ok (),
        set_heap
          (<[t := <["options" := VRef d]> (<["defaultOptions" := VRef d]> ∅)]>
             (<[d := merge d (properties_of st options) D0]>
                (<[u := default_urls]> (heap st))))
          st)) as Hbody.
  { unfold SpRestApi.
    assert (globals st0 !! "console" = Some cns) as Hcns0 by done.
    assert (globals st0 !! "_spPageContextInfo" = Some ctx) as Hctx0 by done.
    rewrite (bind_ok _ _ _ _ _ (lookup_global_run st0 _ _ Hcns0)).
    rewrite (bind_ok _ _ _ _ _ (get_field_defined st0 cns "log" Hc1 Hc2)).
    rewrite (bind_ok _ _ _ _ _ (lookup_global_run st0 _ _ Hcns0)).
    rewrite (bind_ok _ _ _ _ _ (get_field_defined st0 cns "log" Hc1 Hc2)).
    rewrite (bind_ok _ _ _ _ _ (lookup_global_run st0 _ _ Hctx0)).
    rewrite (bind_ok _ _ _ _ _ (siteUrl_run st0 ctx Hctx0)).
    rewrite (bind_ok _ _ _ _ _ (getElementById_run st0 _)).
    rewrite (bind_ok _ _ _ _ _ (token_run st0)).
    pose proof (field_value_alloc st t ∅ cns "log" Hfresh_t
                  (or_introl eq_refl)) as Hlog.
    pose proof (page_siteUrl_alloc st t ctx Hfresh_t) as Hsite.
    pose proof (page_token_alloc st t Hfresh_t) as Htoken.
    fold st0 in Hlog, Hsite, Htoken. rewrite Hlog, Hsite, Htoken.
    fold default_urls. rewrite (bind_ok _ _ _ _ _ Hu).
    fold (constructor_defaults st cns ctx u). fold D0.
    rewrite (bind_ok _ _ _ _ _ Hd).
    assert (heap s2 !! t = Some ∅) as Ht2.
    { simpl. rewrite !lookup_insert_ne by done. by rewrite lookup_insert_eq. }
    rewrite (bind_ok _ _ _ _ _
               (set_field_run s2 t "defaultOptions" (VRef d) ∅ Ht2)).
    set (T1 := <["defaultOptions":=VRef d]> (∅ : gmap string val)).
    set (s3 := set_heap (<[t:=T1]> (heap s2)) s2).
    assert (heap s3 !! t = Some T1) as Ht3.
    { simpl. by rewrite lookup_insert_eq. }
    assert (heap s3 !! d = Some D0) as Hd3.
    { simpl. rewrite lookup_insert_ne by done. by rewrite lookup_insert_eq. }
    rewrite (bind_get_field s3 t T1 _ _ Ht3).
    assert (opt T1 "defaultOptions" = VRef d) as Hopt.
    { unfold opt, T1. by rewrite lookup_insert_eq. }
    rewrite Hopt.
    rewrite (bind_ok _ _ _ _ _ (extend_run s3 d options D0 Hd3)).
    assert (properties_of s3 options = properties_of st options) as ->.
    { apply (properties_of_frame st (heap s3) options Hscoped).
      intros l obj Hl. simpl.
      rewrite !lookup_insert_ne by congruence. done. }
    set (D1 := merge d (properties_of st options) D0).
    set (s4 := set_heap (<[d:=D1]> (heap s3)) s3).
    assert (heap s4 !! t = Some T1) as Ht4.
    { simpl. rewrite lookup_insert_ne by done. by rewrite lookup_insert_eq. }
    rewrite (set_field_run s4 t "options" (VRef d) T1 Ht4).
    f_equal. unfold set_heap. simpl. f_equal.
    apply map_eq. intros i. rewrite !lookup_insert.
    repeat case_decide; congruence. }
  unfold bind at 1. fold (SpRestApi (VRef t) options). by rewrite Hbody.
Qed.

End ConstructorFacts.

(** X6.  The constructor reads the global [_spPageContextInfo] before it
    looks at its argument: on a page that does not declare it the
    constructor raises a ReferenceError, whatever options are passed. *)
Theorem constructor_needs_page_context
    (options : val) (st : state) (cns : val) :
  globals st !! "console" = Some cns → cns ≠ VUndef → cns ≠ VNull →
  globals st !! "_spPageContextInfo" = None →
  (new_SpRestApi options st).1 = Raise (ReferenceError "_spPageContextInfo")
  ∧ requests (new_SpRestApi options st).2 = requests st.
Proof.
  intros Hcns Hc1 Hc2 Hctx.
  destruct (alloc_run ∅ st) as (t & Ht & _).
  set (st0 := set_heap (<[t:=∅]> (heap st)) st) in *.
  assert (new_SpRestApi options st
          = (Raise (ReferenceError "_spPageContextInfo"), st0)) as ->;
    [|by split].
  assert (globals st0 !! "console" = Some cns) as Hcns0 by done.
  unfold new_SpRestApi. rewrite (bind_ok _ _ _ _ _ Ht).
  unfold bind at 1. unfold SpRestApi.
  rewrite (bind_ok _ _ _ _ _ (ConstructorFacts.lookup_global_run st0 _ _ Hcns0)).
  rewrite (bind_ok _ _ _ _ _
             (ConstructorFacts.get_field_defined st0 cns "log" Hc1 Hc2)).
  rewrite (bind_ok _ _ _ _ _ (ConstructorFacts.lookup_global_run st0 _ _ Hcns0)).
  rewrite (bind_ok _ _ _ _ _
             (ConstructorFacts.get_field_defined st0 cns "log" Hc1 Hc2)).
  unfold bind at 1. unfold lookup_global at 1.
  change (globals st0) with (globals st). by rewrite Hctx.
Qed.

Lemma constructor_needs_page_context_witness :
  globals Page.plain_page !! "console" = Some (VRef 1)
  ∧ VRef 1 ≠ VUndef ∧ VRef 1 ≠ VNull
  ∧ globals Page.plain_page !! "_spPageContextInfo" = None
  ∧ field_value Page.plain_page Page.plain_options "siteUrl"
    = VStr "https://example.org"
  ∧ (new_SpRestApi Page.plain_options Page.plain_page).1
    = Raise (ReferenceError "_spPageContextInfo").
Proof.
  split; [reflexivity|]. split; [discriminate|]. split; [discriminate|].
  split; [reflexivity|]. split; [reflexivity|].
  apply (constructor_needs_page_context Page.plain_options Page.plain_page
           (VRef 1)); [reflexivity|discriminate|discriminate|reflexivity].
Defined.

Lemma page_is_bound : page_bound Page.page (VRef 1) (VRef 2).
Proof. repeat split; done. Defined.

(** X7.  On a SharePoint page the constructor returns a new instance whose
    [options] and [defaultOptions] are one and the same new object; it
    leaves every existing object as it was, sends no request and calls no
    function. *)
Theorem constructor_builds_new_client
    (options : val) (st : state) (cns ctx : val) :
  page_bound st cns ctx → well_scoped st options →
  ∃ this o opts st',
    new_SpRestApi options st = (Ok (VRef this), st')
    ∧ aliased_client st' this o opts
    ∧ heap st !! this = None ∧ heap st !! o = None
    ∧ (∀ l obj, heap st !! l = Some obj → heap st' !! l = Some obj)
    ∧ globals st' = globals st
    ∧ requests st' = requests st
    ∧ calls st' = calls st.
Proof.
  intros Hpage Hscoped.
  destruct (ConstructorFacts.new_SpRestApi_run options st cns ctx Hpage Hscoped)
    as (t & u & d & Ht & Hu & Hd & Htu & Htd & Hud & Hrun).
  do 4 eexists. split; [exact Hrun|].
  split.
  { eexists. simpl. rewrite lookup_insert_eq. split; [done|].
    split; [by rewrite lookup_insert_eq|].
    split; [by rewrite lookup_insert_ne, lookup_insert_eq|].
    rewrite lookup_insert_ne by done. by rewrite lookup_insert_eq. }
  split; [done|]. split; [done|]. split; [|done].
  intros l obj Hl. simpl. by rewrite !lookup_insert_ne by congruence.
Qed.

Lemma constructor_builds_new_client_witness :
  page_bound Page.page (VRef 1) (VRef 2)
  ∧ well_scoped Page.page VUndef
  ∧ ∃ this o opts st',
      new_SpRestApi VUndef Page.page = (Ok (VRef this), st')
      ∧ aliased_client st' this o opts
      ∧ heap Page.page !! this = None ∧ heap Page.page !! o = None
      ∧ (∀ l obj, heap Page.page !! l = Some obj → heap st' !! l = Some obj)
      ∧ globals st' = globals Page.page
      ∧ requests st' = requests Page.page
      ∧ calls st' = calls Page.page.
Proof.
  assert (well_scoped Page.page VUndef) as H by (intros a Ha; discriminate Ha).
  split; [exact page_is_bound|]. split; [exact H|].
  exact (constructor_builds_new_client VUndef Page.page (VRef 1) (VRef 2)
           page_is_bound H).
Defined.

(** X8.  The options of a new instance are the constructor's defaults
    overridden by the fields of the argument: a field the argument gives
    (with a value other than [undefined]) has that value, every other field
    has its default.  The defaults are an empty list title, 100 items, the
    recursive flag set, verbose metadata, the page's site URL and request
    digest, and the two URL templates. *)
Theorem constructor_defaults_and_overrides
    (options : val) (st : state) (cns ctx : val) :
  page_bound st cns ctx → well_scoped st options →
  let given := properties_of st options in
  ∃ this o u opts st',
    new_SpRestApi options st = (Ok (VRef this), st')
    ∧ client st' this o opts
    ∧ (∀ k v, given !! k = Some v → copied o (k, v) → opts !! k = Some v)
    ∧ (∀ k, opt given k = VUndef →
            opts !! k = constructor_defaults st cns ctx u !! k)
    ∧ (opt given "listTitle" = VUndef → opt opts "listTitle" = VStr "")
    ∧ (opt given "maxItems" = VUndef → opt opts "maxItems" = VNum 100)
    ∧ (opt given "recursiveFetch" = VUndef →
       opt opts "recursiveFetch" = VBool true)
    ∧ (opt given "verbosity" = VUndef →
       opt opts "verbosity" = VStr "application/json;odata=verbose")
    ∧ (opt given "siteUrl" = VUndef →
       opt opts "siteUrl" = page_siteUrl st ctx)
    ∧ (opt given "token" = VUndef → opt opts "token" = page_token st)
    ∧ (opt given "urls" = VUndef →
       url_template st' opts "list" urls_list
       ∧ url_template st' opts "item" urls_item).
Proof.
  intros Hpage Hscoped given.
  destruct (ConstructorFacts.new_SpRestApi_run options st cns ctx Hpage Hscoped)
    as (t & u & d & Ht & Hu & Hd & Htu & Htd & Hud & Hrun).
  fold given in Hrun.
  set (D0 := constructor_defaults st cns ctx u) in *.
  exists t, d, u, (merge d given D0). eexists. split; [exact Hrun|].
  assert (∀ k, opt given k = VUndef → merge d given D0 !! k = D0 !! k)
    as Hdefault by (intros k Hk; by apply merge_keeps).
  assert (∀ k, opt given k = VUndef → opt (merge d given D0) k = opt D0 k)
    as Hopt by (intros k Hk; unfold opt; by rewrite Hdefault).
  split.
  { eexists. simpl. rewrite lookup_insert_eq. split; [done|].
    split; [by rewrite lookup_insert_eq|].
    rewrite lookup_insert_ne by done. by rewrite lookup_insert_eq. }
  split.
  { intros k v Hk Hcopied. rewrite merge_lookup, Hk. by rewrite decide_True. }
  split; [exact Hdefault|].
  do 6 (split; [intros Hk; by rewrite (Hopt _ Hk)|]).
  intros Hk. split; exists u, default_urls.
  - split; [by rewrite (Hdefault _ Hk)|]. split; [|done].
    simpl. rewrite !lookup_insert_ne by done. by rewrite lookup_insert_eq.
  - split; [by rewrite (Hdefault _ Hk)|]. split; [|done].
    simpl. rewrite !lookup_insert_ne by done. by rewrite lookup_insert_eq.
Qed.

Lemma constructor_defaults_and_overrides_witness :
  page_bound Page.with_settings (VRef 1) (VRef 2)
  ∧ well_scoped Page.with_settings Page.settings
  ∧ ∃ this o opts st',
      new_SpRestApi Page.settings Page.with_settings = (Ok (VRef this), st')
      ∧ client st' this o opts
      ∧ opt opts "maxItems" = VNum 5000
      ∧ opt opts "token" = VStr "0x1F2E3D"
      ∧ opt opts "siteUrl" = VStr Page.site
      ∧ opt opts "listTitle" = VStr "".
Proof.
  assert (page_bound Page.with_settings (VRef 1) (VRef 2)) as Hpage
    by (repeat split; done).
  assert (well_scoped Page.with_settings Page.settings) as Hscoped.
  { intros a [= <-]. by eexists. }
  split; [exact Hpage|]. split; [exact Hscoped|].
  destruct (constructor_defaults_and_overrides Page.settings
              Page.with_settings (VRef 1) (VRef 2) Hpage Hscoped)
    as (this & o & u & opts & st' & Hrun & Hclient & Hgiven & _ & Htitle & _
        & _ & _ & Hsite & Htoken & _).
  exists this, o, opts, st'. split; [exact Hrun|]. split; [exact Hclient|].
  split.
  { unfold opt. rewrite (Hgiven "maxItems" (VNum 5000)); [done|done|].
    repeat split; done. }
  split; [by rewrite Htoken|]. split; [by rewrite Hsite|by rewrite Htitle].
Defined.

(** X9.  Instances do not share their options: constructing a second
    instance leaves the first as it was, and [lists] or [config] on the
    second never changes the options of the first. *)
Theorem instances_are_independent
    (options : val) (st : state) (cns ctx : val)
    (this1 o1 : loc) (opts1 : gmap string val) :
  aliased_client st this1 o1 opts1 →
  page_bound st cns ctx → well_scoped st options →
  ∃ this2 o2 opts2 st',
    new_SpRestApi options st = (Ok (VRef this2), st')
    ∧ aliased_client st' this2 o2 opts2
    ∧ this2 ≠ this1 ∧ o2 ≠ o1
    ∧ aliased_client st' this1 o1 opts1
    ∧ (∀ title,
         aliased_client (lists (VRef this2) title st').2 this1 o1 opts1)
    ∧ (∀ options',
         aliased_client (config (VRef this2) options' st').2 this1 o1 opts1).
Proof.
  intros (inst1 & Hinst1 & Ho1 & Hd1 & Hopts1 & Hne1) Hpage Hscoped.
  destruct (ConstructorFacts.new_SpRestApi_run options st cns ctx Hpage Hscoped)
    as (t & u & d & Ht & Hu & Hd & Htu & Htd & Hud & Hrun).
  set (opts2 := merge d (properties_of st options)
                  (constructor_defaults st cns ctx u)) in *.
  match type of Hrun with _ = (_, ?s) => set (st' := s) in * end.
  exists t, d, opts2, st'. split; [exact Hrun|].
  assert (aliased_client st' t d opts2) as Halias2.
  { eexists. unfold st'. simpl. rewrite lookup_insert_eq. split; [done|].
    split; [by rewrite lookup_insert_eq|].
    split; [by rewrite lookup_insert_ne, lookup_insert_eq|].
    rewrite lookup_insert_ne by done. by rewrite lookup_insert_eq. }
  assert (t ≠ this1 ∧ t ≠ o1 ∧ d ≠ this1 ∧ d ≠ o1 ∧ u ≠ this1 ∧ u ≠ o1)
    as (? & ? & ? & ? & ? & ?) by (repeat split; congruence).
  assert (∀ h, h !! this1 = heap st' !! this1 → h !! o1 = heap st' !! o1 →
               aliased_client (set_heap h st') this1 o1 opts1) as Hkeep.
  { intros h Hthis Hopts. exists inst1. unfold st' in *. simpl in *.
    rewrite Hthis, Hopts, !lookup_insert_ne by done. done. }
  split; [done|]. split; [done|]. split; [done|]. split; [|split].
  - exists inst1. unfold st'. simpl. by rewrite !lookup_insert_ne.
  - intros title.
    rewrite (proj1 (lists_run st' t d opts2 title Halias2)).
    apply Hkeep; simpl; by rewrite lookup_insert_ne.
  - intros options'. rewrite (config_run st' t d opts2 Halias2 options').
    apply Hkeep; simpl; by rewrite lookup_insert_ne.
Qed.

Lemma instances_are_independent_witness :
  aliased_client Page.docs_client Page.api Page.api_options Page.docs_options
  ∧ page_bound Page.docs_client (VRef 1) (VRef 2)
  ∧ well_scoped Page.docs_client VUndef
  ∧ ∃ this2 o2 opts2 st',
      new_SpRestApi VUndef Page.docs_client = (Ok (VRef this2), st')
      ∧ aliased_client st' this2 o2 opts2
      ∧ this2 ≠ Page.api ∧ o2 ≠ Page.api_options
      ∧ aliased_client (lists (VRef this2) (VStr "Other") st').2
          Page.api Page.api_options Page.docs_options.
Proof.
  assert (aliased_client Page.docs_client Page.api Page.api_options
            Page.docs_options) as Halias.
  { eexists. split; [reflexivity|]. split; [reflexivity|].
    split; [reflexivity|]. split; [vm_compute; reflexivity|done]. }
  assert (page_bound Page.docs_client (VRef 1) (VRef 2)) as Hpage
    by (repeat split; done).
  assert (well_scoped Page.docs_client VUndef) as Hscoped
    by (intros a Ha; discriminate Ha).
  split; [exact Halias|]. split; [exact Hpage|]. split; [exact Hscoped|].
  destruct (instances_are_independent VUndef Page.docs_client (VRef 1)
              (VRef 2) Page.api Page.api_options Page.docs_options
              Halias Hpage Hscoped)
    as (this2 & o2 & opts2 & st' & Hrun & Halias2 & Hn1 & Hn2 & _ & Hlists & _).
  exists this2, o2, opts2, st'.
  split; [exact Hrun|]. split; [exact Halias2|]. split; [exact Hn1|].
  split; [exact Hn2|]. apply Hlists.
Defined.

(** ** [lists] and [config] together *)

Module ConfigFacts.

Lemma url_template_insert st o opts k v name tpl :
  heap st !! o = Some opts → k ≠ "urls" → k ≠ name →
  url_template st opts name tpl →
  url_template (set_heap (<[o := <[k := v]> opts]> (heap st)) st)
               (<[k := v]> opts) name tpl.
Proof.
  intros Hopts Hk1 Hk2 (u & urls & Hurls & Hu & Hname).
  destruct (decide (u = o)) as [->|Huo].
  - assert (urls = opts) as -> by congruence.
    exists o, (<[k := v]> opts). rewrite lookup_insert_ne by done.
    split; [done|]. simpl. rewrite lookup_insert_eq. split; [done|].
    by rewrite lookup_insert_ne.
  - exists u, urls. rewrite lookup_insert_ne by done. split; [done|].
    simpl. by rewrite lookup_insert_ne.
Qed.


Lemma merge_twice l props old :
  merge l props (merge l props old) = merge l props old.
Proof.
  apply map_eq. intros k. rewrite !merge_lookup.
  destruct (props !! k); [|done]. by case_decide.
Qed.


Lemma configured_properties st o opts a props :
  heap st !! a = Some props → a ≠ o →
  properties_of (configured st o opts (VRef a)) (VRef a) = props.
Proof.
  intros Ha Hne. simpl. rewrite lookup_insert_ne by done. by rewrite Ha.
Qed.

End ConfigFacts.

(** X10.  [lists] writes the list title into the one object that is both
    [options] and [defaultOptions], so a later [config] that does not name
    [listTitle] keeps the title that [lists] has set. *)
Theorem lists_then_config_keeps_title
    (st : state) (this o : loc) (opts : gmap string val)
    (title options : val) :
  aliased_client st this o opts →
  opt (properties_of (lists (VRef this) title st).2 options) "listTitle"
    = VUndef →
  ∃ st1 st2 opts2,
    lists (VRef this) title st = (Ok (VRef this), st1)
    ∧ config (VRef this) options st1 = (Ok (VRef this), st2)
    ∧ aliased_client st2 this o opts2
    ∧ opts2 !! "listTitle" = Some title.
Proof.
  intros Halias.
  destruct (lists_run st this o opts title Halias) as (Hrun & Halias1).
  rewrite Hrun. simpl snd. intros Hgiven.
  do 3 eexists. split; [done|].
  split; [by apply config_run|]. split; [by apply configured_aliased|].
  rewrite merge_keeps by done. by rewrite lookup_insert_eq.
Qed.

Lemma lists_then_config_keeps_title_witness :
  aliased_client Page.with_arguments Page.api Page.api_options
    Page.fresh_options
  ∧ opt (properties_of
           (lists (VRef Page.api) (VStr "Docs") Page.with_arguments).2
           (VRef Page.token_argument)) "listTitle" = VUndef
  ∧ ∃ st1 st2 opts2,
      lists (VRef Page.api) (VStr "Docs") Page.with_arguments
      = (Ok (VRef Page.api), st1)
      ∧ config (VRef Page.api) (VRef Page.token_argument) st1
        = (Ok (VRef Page.api), st2)
      ∧ aliased_client st2 Page.api Page.api_options opts2
      ∧ opts2 !! "listTitle" = Some (VStr "Docs").
Proof.
  assert (opt (properties_of
                 (lists (VRef Page.api) (VStr "Docs") Page.with_arguments).2
                 (VRef Page.token_argument)) "listTitle" = VUndef) as H
    by (vm_compute; reflexivity).
  split; [exact with_arguments_aliased|]. split; [exact H|].
  exact (lists_then_config_keeps_title Page.with_arguments Page.api
           Page.api_options Page.fresh_options (VStr "Docs")
           (VRef Page.token_argument) with_arguments_aliased H).
Defined.

(** X11.  [lists] returns the instance, and a [getItem] that follows it
    asks for the item of the list just named: the URL is the site URL,
    [/_api/web/lists/getbytitle('<title>')/items(<itemId>)]. *)
Theorem lists_then_getItem_uses_title
    (st : state) (this o : loc) (opts : gmap string val)
    (title itemId : val) :
  aliased_client st this o opts →
  url_template st opts "item" urls_item →
  title ≠ VUndef → truthy itemId = true →
  ∃ st1,
    lists (VRef this) title st = (Ok (VRef this), st1)
    ∧ getItem (VRef this) itemId st1
      = (Ok (),
         add_request
           (get_request opts
              (VStr (to_string (opt opts "siteUrl")
                       +:+ "/_api/web/lists/getbytitle('"
                       +:+ to_string title
                       +:+ "')/items(" +:+ to_string itemId +:+ ")")))
           st1).
Proof.
  intros Halias Htpl Htitle Hid.
  destruct (lists_run st this o opts title Halias) as (Hrun & Halias1).
  eexists. split; [exact Hrun|].
  assert (heap st !! o = Some opts) as Hopts
    by (by destruct Halias as (? & ? & ? & ? & ? & ?)).
  rewrite (getItem_run _ this o _ itemId
             (aliased_client_client _ _ _ _ Halias1)
             (ConfigFacts.url_template_insert st o opts "listTitle" title
                "item" urls_item Hopts ltac:(done) ltac:(done) Htpl) Hid).
  unfold get_request, item_url, opt. rewrite lookup_insert_eq.
  rewrite !lookup_insert_ne by done. simpl default.
  unfold argument_text. by destruct title.
Qed.

Lemma lists_then_getItem_uses_title_witness :
  aliased_client Page.with_arguments Page.api Page.api_options
    Page.fresh_options
  ∧ url_template Page.with_arguments Page.fresh_options "item" urls_item
  ∧ VStr "Tasks" ≠ VUndef ∧ truthy (VNum 12) = true
  ∧ ∃ st1,
      lists (VRef Page.api) (VStr "Tasks") Page.with_arguments
      = (Ok (VRef Page.api), st1)
      ∧ getItem (VRef Page.api) (VNum 12) st1
        = (Ok (),
           add_request
             (get_request Page.fresh_options
                (VStr "https://contoso.sharepoint.com/sites/team/_api/web/lists/getbytitle('Tasks')/items(12)"))
             st1).
Proof.
  assert (url_template Page.with_arguments Page.fresh_options "item" urls_item)
    as Htpl by (do 2 eexists; split; [reflexivity|]; split; reflexivity).
  split; [exact with_arguments_aliased|]. split; [exact Htpl|].
  split; [discriminate|]. split; [reflexivity|].
  destruct (lists_then_getItem_uses_title Page.with_arguments Page.api
              Page.api_options Page.fresh_options (VStr "Tasks") (VNum 12)
              with_arguments_aliased Htpl ltac:(discriminate) eq_refl)
    as (st1 & Hlists & Hget).
  exists st1. split; [exact Hlists|]. rewrite Hget. do 3 f_equal.
Defined.

(** X12.  [config] merges one level deep: a [urls] object in the argument
    replaces the whole [urls] object.  When the new one has no [item]
    template, a later [getItem] fails with a TypeError and sends nothing. *)
Theorem config_replaces_urls_whole
    (st : state) (this o a u : loc) (opts given urls : gmap string val)
    (itemId : val) :
  aliased_client st this o opts →
  heap st !! a = Some given → a ≠ o →
  given !! "urls" = Some (VRef u) → u ≠ o →
  heap st !! u = Some urls → urls !! "item" = None →
  truthy itemId = true →
  ∃ st1,
    config (VRef this) (VRef a) st = (Ok (VRef this), st1)
    ∧ getItem (VRef this) itemId st1 = (Raise TypeError, st1).
Proof.
  intros Halias Ha Hao Hurls Huo Hu Hitem Hid.
  eexists. split; [by apply config_run|].
  pose proof (configured_aliased st this o opts Halias (VRef a)) as Halias1.
  apply aliased_client_client in Halias1 as Hclient.
  set (st1 := configured st o opts (VRef a)) in *.
  set (opts1 := merge o (properties_of st (VRef a)) opts) in *.
  assert (opt opts1 "urls" = VRef u) as Hurls1.
  { unfold opt, opts1. rewrite merge_lookup. simpl. rewrite Ha. simpl.
    rewrite Hurls. rewrite decide_True; [done|].
    repeat split; [done| |done]. simpl. congruence. }
  assert (heap st1 !! u = Some urls) as Hu1.
  { unfold st1, configured. simpl. by rewrite lookup_insert_ne. }
  unfold getItem. rewrite Hid. cbn [negb].
  rewrite !(read_option st1 this o opts1 Hclient). rewrite Hurls1.
  rewrite (bind_get_field st1 u urls "item" _ Hu1).
  unfold opt at 1. rewrite Hitem. simpl default.
  by rewrite (read_option st1 this o opts1 Hclient).
Qed.

Lemma config_replaces_urls_whole_witness :
  aliased_client Page.with_list_template Page.api Page.api_options
    Page.docs_options
  ∧ heap Page.with_list_template !! Page.list_template_argument
    = Some {[ "urls" := VRef 7 ]}
  ∧ Page.list_template_argument ≠ Page.api_options
  ∧ ({[ "urls" := VRef 7 ]} : gmap string val) !! "urls" = Some (VRef 7)
  ∧ 7%positive ≠ Page.api_options
  ∧ heap Page.with_list_template !! 7%positive
    = Some {[ "list" := VStr "/lists('{0}')" ]}
  ∧ ({[ "list" := VStr "/lists('{0}')" ]} : gmap string val) !! "item" = None
  ∧ truthy (VNum 5) = true
  ∧ (∃ r, getItem (VRef Page.api) (VNum 5) Page.with_list_template
          = (Ok (), add_request r Page.with_list_template))
  ∧ ∃ st1,
      config (VRef Page.api) (VRef Page.list_template_argument)
        Page.with_list_template
      = (Ok (VRef Page.api), st1)
      ∧ getItem (VRef Page.api) (VNum 5) st1 = (Raise TypeError, st1).
Proof.
  assert (aliased_client Page.with_list_template Page.api Page.api_options
            Page.docs_options) as Halias.
  { eexists. split; [reflexivity|]. split; [reflexivity|].
    split; [reflexivity|]. split; [vm_compute; reflexivity|done]. }
  assert (heap Page.with_list_template !! Page.list_template_argument
          = Some {[ "urls" := VRef 7 ]}) as Ha by (vm_compute; reflexivity).
  assert (heap Page.with_list_template !! 7%positive
          = Some {[ "list" := VStr "/lists('{0}')" ]}) as Hu
    by (vm_compute; reflexivity).
  split; [exact Halias|]. split; [exact Ha|]. split; [done|].
  split; [reflexivity|]. split; [done|]. split; [exact Hu|].
  split; [reflexivity|]. split; [reflexivity|]. split.
  { eexists. apply (getItem_run _ Page.api Page.api_options Page.docs_options).
    - by apply aliased_client_client.
    - do 2 eexists. split; [reflexivity|]. split; reflexivity.
    - reflexivity. }
  exact (config_replaces_urls_whole Page.with_list_template Page.api
           Page.api_options Page.list_template_argument 7 Page.docs_options
           {[ "urls" := VRef 7 ]} {[ "list" := VStr "/lists('{0}')" ]} (VNum 5)
           Halias Ha ltac:(done) eq_refl ltac:(done) Hu eq_refl eq_refl).
Defined.



(** X14.  Two [config] calls in a row: for each field the later call wins
    where it gives the field, otherwise the earlier call where that gives
    it, otherwise the field keeps its value. *)
Theorem config_last_write_wins
    (st : state) (this o a1 a2 : loc) (opts p1 p2 : gmap string val) :
  aliased_client st this o opts →
  heap st !! a1 = Some p1 → heap st !! a2 = Some p2 → a1 ≠ o → a2 ≠ o →
  ∃ st1 st2 opts2,
    config (VRef this) (VRef a1) st = (Ok (VRef this), st1)
    ∧ config (VRef this) (VRef a2) st1 = (Ok (VRef this), st2)
    ∧ aliased_client st2 this o opts2
    ∧ (∀ k v, p2 !! k = Some v → copied o (k, v) → opts2 !! k = Some v)
    ∧ (∀ k v, opt p2 k = VUndef → p1 !! k = Some v → copied o (k, v) →
              opts2 !! k = Some v)
    ∧ (∀ k, opt p2 k = VUndef → opt p1 k = VUndef → opts2 !! k = opts !! k).
Proof.
  intros Halias Ha1 Ha2 Hne1 Hne2.
  pose proof (configured_aliased st this o opts Halias (VRef a1)) as Halias1.
  set (st1 := configured st o opts (VRef a1)) in *.
  set (opts1 := merge o (properties_of st (VRef a1)) opts) in *.
  exists st1, (configured st1 o opts1 (VRef a2)),
         (merge o (properties_of st1 (VRef a2)) opts1).
  split; [by apply config_run|]. split; [by apply config_run|].
  split; [by apply configured_aliased|].
  assert (properties_of st (VRef a1) = p1) as Hp1 by (simpl; by rewrite Ha1).
  assert (properties_of st1 (VRef a2) = p2) as Hp2.
  { simpl. rewrite lookup_insert_ne by done. by rewrite Ha2. }
  rewrite Hp2. subst opts1. rewrite Hp1. split; [|split].
  - intros k v Hk Hc. rewrite merge_lookup, Hk. by rewrite decide_True.
  - intros k v Hk2 Hk1 Hc. rewrite merge_keeps by done.
    rewrite merge_lookup, Hk1. by rewrite decide_True.
  - intros k Hk2 Hk1. by rewrite !merge_keeps.
Qed.

Lemma config_last_write_wins_witness :
  aliased_client Page.with_arguments Page.api Page.api_options
    Page.fresh_options
  ∧ heap Page.with_arguments !! Page.listTitle_argument
    = Some {[ "listTitle" := VStr "X" ]}
  ∧ Page.listTitle_argument ≠ Page.api_options
  ∧ ∃ st1 st2 opts2,
      config (VRef Page.api) (VRef Page.listTitle_argument) Page.with_arguments
      = (Ok (VRef Page.api), st1)
      ∧ config (VRef Page.api) (VRef Page.listTitle_argument) st1
        = (Ok (VRef Page.api), st2)
      ∧ aliased_client st2 Page.api Page.api_options opts2
      ∧ opts2 !! "listTitle" = Some (VStr "X")
      ∧ opts2 !! "maxItems" = Some (VNum 100).
Proof.
  assert (heap Page.with_arguments !! Page.listTitle_argument
          = Some {[ "listTitle" := VStr "X" ]}) as Ha
    by (vm_compute; reflexivity).
  assert (Page.listTitle_argument ≠ Page.api_options) as Hne by done.
  split; [exact with_arguments_aliased|]. split; [exact Ha|].
  split; [exact Hne|].
  destruct (config_last_write_wins Page.with_arguments Page.api
              Page.api_options Page.listTitle_argument Page.listTitle_argument
              Page.fresh_options _ _ with_arguments_aliased Ha Ha Hne Hne)
    as (st1 & st2 & opts2 & H1 & H2 & Halias2 & Hlast & _ & Hkeep).
  exists st1, st2, opts2. split; [exact H1|]. split; [exact H2|].
  split; [exact Halias2|]. split.
  - apply Hlast; [reflexivity|]. repeat split; done.
  - rewrite Hkeep; reflexivity.
Defined.

(** X15.  [config] is idempotent: calling it a second time with the same
    object leaves the state exactly as the first call left it. *)
Theorem config_is_idempotent
    (st : state) (this o a : loc) (opts given : gmap string val) :
  aliased_client st this o opts →
  heap st !! a = Some given → a ≠ o →
  ∃ st1,
    config (VRef this) (VRef a) st = (Ok (VRef this), st1)
    ∧ config (VRef this) (VRef a) st1 = (Ok (VRef this), st1).
Proof.
  intros Halias Ha Hne.
  pose proof (configured_aliased st this o opts Halias (VRef a)) as Halias1.
  eexists. split; [by apply config_run|].
  rewrite (config_run _ this o _ Halias1). f_equal.
  unfold configured at 1.
  rewrite (ConfigFacts.configured_properties st o opts a given Ha Hne).
  assert (properties_of st (VRef a) = given) as Hgiven
    by (simpl; by rewrite Ha).
  rewrite Hgiven, ConfigFacts.merge_twice.
  unfold configured. rewrite Hgiven. simpl heap.
  by rewrite insert_insert_eq.
Qed.

Lemma config_is_idempotent_witness :
  aliased_client Page.with_arguments Page.api Page.api_options
    Page.fresh_options
  ∧ heap Page.with_arguments !! Page.token_argument
    = Some {[ "token" := VStr "t" ]}
  ∧ Page.token_argument ≠ Page.api_options
  ∧ ∃ st1,
      config (VRef Page.api) (VRef Page.token_argument) Page.with_arguments
      = (Ok (VRef Page.api), st1)
      ∧ config (VRef Page.api) (VRef Page.token_argument) st1
        = (Ok (VRef Page.api), st1).
Proof.
  assert (heap Page.with_arguments !! Page.token_argument
          = Some {[ "token" := VStr "t" ]}) as Ha by (vm_compute; reflexivity).
  assert (Page.token_argument ≠ Page.api_options) as Hne by done.
  split; [exact with_arguments_aliased|]. split; [exact Ha|].
  split; [exact Hne|].
  exact (config_is_idempotent Page.with_arguments Page.api Page.api_options
           Page.token_argument Page.fresh_options _
           with_arguments_aliased Ha Hne).
Defined.

(** ** URLs *)

Module UrlFacts.

Lemma has_query_app a b : has_query (a +:+ b) ↔ has_query a ∨ has_query b.
Proof.
  induction a as [|c a IH].
  - rewrite StringFacts.app_nil_l. split; [by right|].
    intros [H|H]; [by destruct no_query_in_empty|done].
  - rewrite Polyfill.app_cons, !has_query_cons, IH. tauto.
Qed.

Lemma has_query_separator url rest :
  has_query (url +:+ separator url +:+ rest).
Proof.
  rewrite !has_query_app. unfold separator.
  destruct (Polyfill.includes url "?" VUndef) eqn:H.
  - left. by apply includes_query.
  - right. left. by exists "", "".
Qed.

Lemma separator_query url : has_query url → separator url = "&".
Proof. intros H%includes_query. unfold separator. by rewrite H. Qed.

Lemma separator_no_query url : ¬ has_query url → separator url = "?".
Proof.
  intros H. unfold separator.
  destruct (Polyfill.includes url "?" VUndef) eqn:Hi; [|done].
  by apply includes_query in Hi.
Qed.

Lemma no_query (s : string) :
  Polyfill.includes s "?" VUndef = false → ¬ has_query s.
Proof. intros H Hq%includes_query. congruence. Qed.

End UrlFacts.

(** X16.  The URL that [addMaxItems] returns always holds a question mark,
    so applying [addMaxItems] to it once more adds the second [$top=] with
    [&]. *)
Theorem addMaxItems_result_has_query
    (st : state) (this o : loc) (opts : gmap string val) (url : string) :
  client st this o opts →
  ∃ once,
    addMaxItems (VRef this) (VStr url) st = (Ok (VStr once), st)
    ∧ has_query once
    ∧ addMaxItems (VRef this) (VStr once) st
      = (Ok (VStr (once +:+ "&" +:+ "$top="
                     +:+ to_string (opt opts "maxItems"))), st).
Proof.
  intros Hclient. eexists. split; [by apply (addMaxItems_run st this o opts)|].
  split; [apply UrlFacts.has_query_separator|].
  rewrite (addMaxItems_run st this o opts Hclient).
  by rewrite (UrlFacts.separator_query _ (UrlFacts.has_query_separator _ _)).
Qed.

Lemma addMaxItems_result_has_query_witness :
  client Page.docs_client Page.api Page.api_options Page.docs_options
  ∧ ∃ once,
      addMaxItems (VRef Page.api) (VStr "/_api/web") Page.docs_client
      = (Ok (VStr once), Page.docs_client)
      ∧ has_query once
      ∧ addMaxItems (VRef Page.api) (VStr once) Page.docs_client
        = (Ok (VStr (once +:+ "&" +:+ "$top="
                       +:+ to_string (opt Page.docs_options "maxItems"))),
           Page.docs_client).
Proof.
  split; [exact docs_client_ok|].
  exact (addMaxItems_result_has_query Page.docs_client Page.api
           Page.api_options Page.docs_options "/_api/web" docs_client_ok).
Defined.

(** X17.  With the default list template, a site URL and a list title
    that are strings: [generateGetAllListItemsUrl] returns
    [<site>/_api/web/lists/getbytitle('<title>')/items?$top=<maxItems>]
    when neither the site URL nor the title holds a question mark; when one
    of them does, the page size is joined with [&] instead. *)
Theorem list_url_for_default_template
    (st : state) (this o : loc) (opts : gmap string val)
    (site title : string) :
  client st this o opts →
  url_template st opts "list" urls_list →
  opts !! "siteUrl" = Some (VStr site) →
  opts !! "listTitle" = Some (VStr title) →
  let path := site +:+ "/_api/web/lists/getbytitle('" +:+ title +:+ "')/items" in
  (¬ has_query site → ¬ has_query title →
     generateGetAllListItemsUrl (VRef this) st
     = (Ok (VStr (path +:+ "?$top=" +:+ to_string (opt opts "maxItems"))), st))
  ∧ (has_query site ∨ has_query title →
     generateGetAllListItemsUrl (VRef this) st
     = (Ok (VStr (path +:+ "&$top=" +:+ to_string (opt opts "maxItems"))), st)).
Proof.
  intros Hclient Htpl Hsite Htitle path.
  assert (generateGetAllListItemsUrl (VRef this) st
          = (Ok (VStr (path +:+ separator path +:+ "$top="
                         +:+ to_string (opt opts "maxItems"))), st)) as ->.
  { rewrite (generateGetAllListItemsUrl_run st this o opts urls_list
               Hclient Htpl).
    unfold list_url. unfold opt at 1 2 3 4. rewrite Hsite, Htitle.
    simpl default. rewrite format_urls_list. unfold argument_text.
    cbn [is_defined to_string]. reflexivity. }
  assert (has_query path ↔ has_query site ∨ has_query title) as Hq.
  { unfold path. rewrite !UrlFacts.has_query_app.
    pose proof (UrlFacts.no_query "/_api/web/lists/getbytitle('" eq_refl).
    pose proof (UrlFacts.no_query "')/items" eq_refl). tauto. }
  clearbody path. split.
  - intros H1 H2.
    rewrite (UrlFacts.separator_no_query path) by (rewrite Hq; tauto).
    reflexivity.
  - intros H.
    rewrite (UrlFacts.separator_query path) by (rewrite Hq; tauto).
    reflexivity.
Qed.

Lemma list_url_for_default_template_witness :
  client Page.docs_client Page.api Page.api_options Page.docs_options
  ∧ url_template Page.docs_client Page.docs_options "list" urls_list
  ∧ Page.docs_options !! "siteUrl" = Some (VStr Page.site)
  ∧ Page.docs_options !! "listTitle" = Some (VStr "Docs")
  ∧ ¬ has_query Page.site ∧ ¬ has_query "Docs"
  ∧ generateGetAllListItemsUrl (VRef Page.api) Page.docs_client
    = (Ok (VStr ((Page.site +:+ "/_api/web/lists/getbytitle('" +:+ "Docs"
                    +:+ "')/items")
                 +:+ "?$top=" +:+ to_string (opt Page.docs_options "maxItems"))),
       Page.docs_client).
Proof.
  assert (¬ has_query Page.site) as H1 by (by apply UrlFacts.no_query).
  assert (¬ has_query "Docs") as H2 by (by apply UrlFacts.no_query).
  split; [exact docs_client_ok|]. split; [exact (proj1 docs_client_templates)|].
  split; [reflexivity|]. split; [reflexivity|]. split; [exact H1|].
  split; [exact H2|].
  exact (proj1 (list_url_for_default_template Page.docs_client Page.api
                  Page.api_options Page.docs_options Page.site "Docs"
                  docs_client_ok (proj1 docs_client_templates)
                  eq_refl eq_refl) H1 H2).
Defined.

(** X18.  The URL that [getAllItemsFromListSubfolder] requests is the list
    URL, which always holds a question mark, followed by [&$filter=...]: the
    filter is always a further parameter of an existing query string. *)
Theorem subfolder_filter_continues_query
    (st : state) (this o : loc) (opts : gmap string val) (tpl : string)
    (subfolderName : val) :
  client st this o opts →
  url_template st opts "list" tpl →
  ∃ base filter,
    generateGetAllListItemsUrl (VRef this) st = (Ok (VStr base), st)
    ∧ has_query base
    ∧ getAllItemsFromListSubfolder (VRef this) subfolderName st
      = (Ok (), add_request (get_request opts (VStr (base +:+ "&" +:+ filter))) st)
    ∧ filter = "$filter=substringof('" +:+ fileref opts subfolderName
                 +:+ "', FileRef)".
Proof.
  intros Hclient Htpl. do 2 eexists.
  split; [by apply (generateGetAllListItemsUrl_run st this o opts tpl)|].
  split; [apply UrlFacts.has_query_separator|].
  split; [|reflexivity].
  by rewrite (getAllItemsFromListSubfolder_run st this o opts tpl
                subfolderName Hclient Htpl).
Qed.

Lemma subfolder_filter_continues_query_witness :
  client Page.docs_client Page.api Page.api_options Page.docs_options
  ∧ url_template Page.docs_client Page.docs_options "list" urls_list
  ∧ ∃ base filter,
      generateGetAllListItemsUrl (VRef Page.api) Page.docs_client
      = (Ok (VStr base), Page.docs_client)
      ∧ has_query base
      ∧ getAllItemsFromListSubfolder (VRef Page.api) (VStr "Drafts")
          Page.docs_client
        = (Ok (),
           add_request
             (get_request Page.docs_options (VStr (base +:+ "&" +:+ filter)))
             Page.docs_client)
      ∧ filter = "$filter=substringof('"
                   +:+ fileref Page.docs_options (VStr "Drafts")
                   +:+ "', FileRef)".
Proof.
  split; [exact docs_client_ok|]. split; [exact (proj1 docs_client_templates)|].
  exact (subfolder_filter_continues_query Page.docs_client Page.api
           Page.api_options Page.docs_options urls_list (VStr "Drafts")
           docs_client_ok (proj1 docs_client_templates)).
Defined.

(** ** Responses *)

(** X19.  The two wrappers that [loadUrl] installs pass the response on to
    the functions [loadUrl] was given, with the response as the only
    argument: [success] on success, [error] on failure, and never both.  A
    value that is not a function makes the wrapper raise a TypeError when
    the response arrives, not when the request is made. *)
Theorem loadUrl_wrappers_forward_response
    (st : state) (this o : loc) (opts : gmap string val)
    (url method success error : val) :
  client st this o opts →
  ∃ r,
    loadUrl (VRef this) url method (FromValue success) (FromValue error) st
    = (Ok (), add_request r st)
    ∧ (∀ src ret st' data,
         success = VFun src ret →
         on_success r data st' = (Ok (), add_call (src, [data]) st'))
    ∧ (∀ src ret st' data,
         error = VFun src ret →
         on_error r data st' = (Ok (), add_call (src, [data]) st'))
    ∧ (∀ st' data,
         is_function success = false →
         on_success r data st' = (Raise TypeError, st'))
    ∧ (∀ st' data,
         is_function error = false →
         on_error r data st' = (Raise TypeError, st')).
Proof.
  intros Hclient. eexists.
  split; [by apply (loadUrl_run st this o opts)|].
  unfold on_success, on_error, call_callee. simpl.
  repeat split.
  - by intros src ret st' data ->.
  - by intros src ret st' data ->.
  - intros st' data H. by destruct success.
  - intros st' data H. by destruct error.
Qed.

Lemma loadUrl_wrappers_forward_response_witness :
  client Page.docs_client Page.api Page.api_options Page.docs_options
  ∧ ∃ r,
      loadUrl (VRef Page.api) (VStr "/_api/web") (VStr "GET")
        (FromValue Page.console_log) (FromValue VNull) Page.docs_client
      = (Ok (), add_request r Page.docs_client)
      ∧ on_success r (VStr "body") Page.docs_client
        = (Ok (),
           add_call ("function log() { [native code] }", [VStr "body"])
             Page.docs_client)
      ∧ on_error r (VStr "body") Page.docs_client
        = (Raise TypeError, Page.docs_client).
Proof.
  split; [exact docs_client_ok|].
  destruct (loadUrl_wrappers_forward_response Page.docs_client Page.api
              Page.api_options Page.docs_options (VStr "/_api/web")
              (VStr "GET") Page.console_log VNull docs_client_ok)
    as (r & Hrun & Hs & _ & _ & He).
  exists r. split; [exact Hrun|]. split.
  - by apply (Hs _ VUndef).
  - by apply He.
Defined.

(** X20.  The callbacks of a request are the ones configured when the
    request was made: the response to a [getItem] or to a
    [getAllItemsFromListSubfolder] goes to the [onsuccess] or [onerror] that
    the options held at the call, whatever the state (and the options) are
    when the response arrives. *)
Theorem responses_go_to_callbacks_of_the_call
    (st : state) (this o : loc) (opts : gmap string val) (tpl : string)
    (itemId subfolderName : val) (s_src e_src : string) (s_ret e_ret : val) :
  client st this o opts →
  url_template st opts "item" urls_item →
  url_template st opts "list" tpl →
  truthy itemId = true →
  opts !! "onsuccess" = Some (VFun s_src s_ret) →
  opts !! "onerror" = Some (VFun e_src e_ret) →
  ∃ r1 r2,
    getItem (VRef this) itemId st = (Ok (), add_request r1 st)
    ∧ getAllItemsFromListSubfolder (VRef this) subfolderName st
      = (Ok (), add_request r2 st)
    ∧ ∀ st' data,
        on_success r1 data st' = (Ok (), add_call (s_src, [data]) st')
        ∧ on_error r1 data st' = (Ok (), add_call (e_src, [data]) st')
        ∧ on_success r2 data st' = (Ok (), add_call (s_src, [data]) st')
        ∧ on_error r2 data st' = (Ok (), add_call (e_src, [data]) st').
Proof.
  intros Hclient Hitem Hlist Hid Hs He. do 2 eexists.
  split; [by apply (getItem_run st this o opts)|].
  split; [by apply (getAllItemsFromListSubfolder_run st this o opts tpl)|].
  intros st' data. unfold on_success, on_error, call_callee, get_request, opt.
  simpl. rewrite Hs, He. done.
Qed.

Lemma responses_go_to_callbacks_of_the_call_witness :
  client Page.docs_client Page.api Page.api_options Page.docs_options
  ∧ url_template Page.docs_client Page.docs_options "item" urls_item
  ∧ url_template Page.docs_client Page.docs_options "list" urls_list
  ∧ truthy (VNum 5) = true
  ∧ Page.docs_options !! "onsuccess" = Some Page.console_log
  ∧ Page.docs_options !! "onerror" = Some Page.console_log
  ∧ ∃ r1 r2,
      getItem (VRef Page.api) (VNum 5) Page.docs_client
      = (Ok (), add_request r1 Page.docs_client)
      ∧ getAllItemsFromListSubfolder (VRef Page.api) (VStr "Drafts")
          Page.docs_client
        = (Ok (), add_request r2 Page.docs_client)
      ∧ on_error r1 (VStr "404") Page.single_request_client
        = (Ok (),
           add_call ("function log() { [native code] }", [VStr "404"])
             Page.single_request_client).
Proof.
  split; [exact docs_client_ok|]. split; [exact (proj2 docs_client_templates)|].
  split; [exact (proj1 docs_client_templates)|]. split; [reflexivity|].
  split; [reflexivity|]. split; [reflexivity|].
  destruct (responses_go_to_callbacks_of_the_call Page.docs_client Page.api
              Page.api_options Page.docs_options urls_list (VNum 5)
              (VStr "Drafts") _ _ VUndef VUndef docs_client_ok
              (proj2 docs_client_templates) (proj1 docs_client_templates)
              eq_refl eq_refl eq_refl) as (r1 & r2 & H1 & H2 & Hr).
  exists r1, r2. split; [exact H1|]. split; [exact H2|].
  apply (Hr Page.single_request_client (VStr "404")).
Defined.

(** ** The digest response *)

Module DigestFacts.




Lemma chosen_digest_truthy st data :
  truthy (digest_of st data "d") = true
  ∨ truthy (digest_of st data "value") = true →
  truthy (chosen_digest st data) = true.
Proof.
  unfold chosen_digest. intros [H|H].
  - by rewrite H.
  - by destruct (truthy (digest_of st data "d")) eqn:Hd.
Qed.

Lemma refreshDigest_success_chosen st callback data :
  truthy (digest_of st data "d") = true
  ∨ truthy (digest_of st data "value") = true →
  refreshDigest_success callback data st
  = (Ok (), digest_stored (chosen_digest st data) callback st).
Proof.
  intros H. unfold refreshDigest_success, chosen_digest.
  unfold bind at 1. rewrite digest_present_run.
  destruct (truthy (digest_of st data "d")) eqn:Hd.
  - unfold bind at 1. unfold bind at 1. rewrite (get_digest_run _ _ _ Hd).
    unfold set_global. by rewrite finish_refresh.
  - destruct H as [H|Hv]; [done|].
    unfold bind at 1. unfold bind at 1. rewrite digest_present_run, Hv.
    unfold bind at 1. rewrite (get_digest_run _ _ _ Hv).
    unfold set_global. by rewrite finish_refresh.
Qed.

End DigestFacts.


(** X22.  When a digest response has the expected shape, the [success]
    closure of [refreshDigest] takes the digest under [d] if there is one
    and the one under [value] otherwise, and assigns it to [this.options],
    which, the closure being called as a plain function, is the global
    [options].  It then calls the callback once, without arguments, if it
    is a function, and skips it without an error if it is not.  It sends no
    request and changes no object of the store, the instance's options
    included. *)
Theorem refreshDigest_success_takes_digest_then_calls_back
    (st : state) (this o : loc) (opts : gmap string val) (callback : val) :
  client st this o opts →
  ∃ r,
    refreshDigest (VRef this) callback st = (Ok (), add_request r st)
    ∧ ∀ st' data,
        truthy (digest_of st' data "d") = true
        ∨ truthy (digest_of st' data "value") = true →
        ∃ st'',
          on_success r data st' = (Ok (), st'')
          ∧ globals st'' !! "options" = Some (chosen_digest st' data)
          ∧ truthy (chosen_digest st' data) = true
          ∧ heap st'' = heap st'
          ∧ requests st'' = requests st'
          ∧ calls st''
            = calls st' ++ match callback with
                           | VFun src _ => [(src, [])]
                           | _ => []
                           end.
Proof.
  intros (inst & Hinst & Ho & Hopts). eexists.
  split; [by apply (refreshDigest_run st this inst o opts)|].
  intros st' data H. eexists.
  split; [by apply DigestFacts.refreshDigest_success_chosen|].
  split.
  { destruct callback; simpl; by rewrite lookup_insert_eq. }
  split; [by apply DigestFacts.chosen_digest_truthy|].
  destruct callback; simpl; by rewrite ?app_nil_r.
Qed.

Lemma refreshDigest_success_takes_digest_then_calls_back_witness :
  client Page.fresh_client Page.api Page.api_options Page.fresh_options
  ∧ (truthy (digest_of Page.digest_received Page.digest_response "d") = true
     ∨ truthy (digest_of Page.digest_received Page.digest_response "value")
       = true)
  ∧ ∃ r,
      refreshDigest (VRef Page.api) VUndef Page.fresh_client
      = (Ok (), add_request r Page.fresh_client)
      ∧ ∃ st'',
          on_success r Page.digest_response Page.digest_received = (Ok (), st'')
          ∧ globals st'' !! "options" = Some (VStr "0xABCDEF")
          ∧ calls st'' = calls Page.digest_received.
Proof.
  assert (client Page.fresh_client Page.api Page.api_options
            Page.fresh_options) as Hclient.
  { eexists. split; [reflexivity|]. split; [reflexivity|].
    vm_compute. reflexivity. }
  assert (truthy (digest_of Page.digest_received Page.digest_response "d")
          = true
          ∨ truthy (digest_of Page.digest_received Page.digest_response "value")
            = true) as Hshape by (left; vm_compute; reflexivity).
  split; [exact Hclient|]. split; [exact Hshape|].
  destruct (refreshDigest_success_takes_digest_then_calls_back
              Page.fresh_client Page.api Page.api_options Page.fresh_options
              VUndef Hclient) as (r & Hrun & Hresp).
  exists r. split; [exact Hrun|].
  destruct (Hresp Page.digest_received Page.digest_response Hshape)
    as (st'' & Hs & Hg & _ & _ & _ & Hc).
  exists st''. split; [exact Hs|]. split.
  - rewrite Hg. vm_compute. reflexivity.
  - rewrite Hc. apply app_nil_r.
Defined.

(** ** The pagination flag *)

(** X23.  No request depends on [recursiveFetch]: with the flag set to any
    value, [loadUrl], [getItem] and [getAllItemsFromListSubfolder] hand the
    very same settings to [$.ajax]. *)
Theorem recursiveFetch_is_never_read
    (st : state) (this o : loc) (opts : gmap string val) (flag : val)
    (tpl : string) (url method itemId subfolderName : val)
    (success error : callee) :
  client st this o opts → this ≠ o →
  url_template st opts "item" urls_item →
  url_template st opts "list" tpl →
  truthy itemId = true →
  let st' := with_flag flag o opts st in
  (∃ r, loadUrl (VRef this) url method success error st
        = (Ok (), add_request r st)
        ∧ loadUrl (VRef this) url method success error st'
          = (Ok (), add_request r st'))
  ∧ (∃ r, getItem (VRef this) itemId st = (Ok (), add_request r st)
          ∧ getItem (VRef this) itemId st' = (Ok (), add_request r st'))
  ∧ (∃ r, getAllItemsFromListSubfolder (VRef this) subfolderName st
          = (Ok (), add_request r st)
          ∧ getAllItemsFromListSubfolder (VRef this) subfolderName st'
            = (Ok (), add_request r st')).
Proof.
  intros Hclient Hne Hitem Hlist Hid st'. split; [|split].
  - by apply recursiveFetch_ignored_by_loadUrl.
  - by apply recursiveFetch_ignored_by_getItem.
  - by apply (recursiveFetch_ignored_by_getAllItemsFromListSubfolder
                st this o opts flag Hclient Hne tpl).
Qed.

Lemma recursiveFetch_is_never_read_witness :
  client Page.docs_client Page.api Page.api_options Page.docs_options
  ∧ Page.api ≠ Page.api_options
  ∧ url_template Page.docs_client Page.docs_options "item" urls_item
  ∧ url_template Page.docs_client Page.docs_options "list" urls_list
  ∧ truthy (VNum 5) = true
  ∧ field_value
      (with_flag (VBool false) Page.api_options Page.docs_options
         Page.docs_client) (VRef Page.api_options) "recursiveFetch"
    = VBool false
  ∧ ∃ r, getItem (VRef Page.api) (VNum 5) Page.docs_client
         = (Ok (), add_request r Page.docs_client)
         ∧ getItem (VRef Page.api) (VNum 5)
             (with_flag (VBool false) Page.api_options Page.docs_options
                Page.docs_client)
           = (Ok (),
              add_request r
                (with_flag (VBool false) Page.api_options Page.docs_options
                   Page.docs_client)).
Proof.
  split; [exact docs_client_ok|]. split; [done|].
  split; [exact (proj2 docs_client_templates)|].
  split; [exact (proj1 docs_client_templates)|].
  split; [reflexivity|]. split; [vm_compute; reflexivity|].
  exact (proj1 (proj2 (recursiveFetch_is_never_read Page.docs_client Page.api
                         Page.api_options Page.docs_options (VBool false)
                         urls_list VUndef VUndef (VNum 5) VUndef
                         (FromValue VUndef) (FromValue VUndef)
                         docs_client_ok ltac:(done)
                         (proj2 docs_client_templates)
                         (proj1 docs_client_templates) eq_refl))).
Defined.
